(** * unidoc: stream filters, positional reader and reference resolution

    A shallow embedding of [pdf/core/stream.go] (encoder selection,
    [DecodeStream], [EncodeStream]) and of the buffered positional reader of
    [PdfParser] ([ReadAtLeast], [GetFileOffset], [SetFileOffset]), together
    with the properties stated about them.

    Go functions returning [(T, error)] become functions into [Outcome T];
    a Go [panic] is a third outcome, distinct from a returned error.
    Functions mutating a [*PdfObjectStream] return the stream after the
    call next to their outcome. *)

From stdpp Require Import gmap strings list fin_maps.
From Stdlib Require Import ZArith Lia Strings.Byte.
From Stdlib Require Floats.

Set Warnings "-register-all,-clear-no-such-hyp,-inexact-float".

(* ===================================================================== *)
(** ** Object model *)
(* ===================================================================== *)

(** Modelled from the spec: the object values of section 3, whose type
    declarations are not among the embedded files.  The variants are the
    ones the code type-switches on ([*PdfObjectNull], [*PdfObjectName],
    [*PdfObjectArray], [*PdfObjectReference], the dictionary of a stream)
    and the scalar leaf kinds; a dictionary is a finite map from names to
    values.  A real number is kept as the bit pattern of its float64. *)
Inductive PdfObject : Type :=
  | PdfObjectNull
  | PdfObjectBool (b : bool)
  | PdfObjectInteger (i : Z)
  | PdfObjectFloat (bits : Z)
  | PdfObjectString (s : string)
  | PdfObjectName (name : string)
  | PdfObjectReference (ObjectNumber GenerationNumber : Z)
  | PdfObjectArray (elems : list PdfObject)
  | PdfObjectDictionary (dict : gmap string PdfObject)
  | PdfObjectStreamValue (dict : gmap string PdfObject) (stream : list byte).

(** [MakeInteger] wraps an int64. *)
Definition MakeInteger (i : Z) : PdfObject := PdfObjectInteger i.

(** Modelled from the spec: the stream object of section 3, the code's
    [*PdfObjectStream] with its embedded [*PdfObjectDictionary] and its
    field [Stream]. *)
Record PdfObjectStream : Type := mkStream {
  StreamDictionary : gmap string PdfObject;
  Stream : list byte
}.

(** [streamObj.PdfObjectDictionary.Get(key)]: Go's [nil] is [None]. *)
Definition Get (key : string) (streamObj : PdfObjectStream) : option PdfObject :=
  StreamDictionary streamObj !! key.

(** [streamObj.PdfObjectDictionary.Set(key, val)]: the dictionary is held by
    pointer, so the stream object sees the update. *)
Definition Set_ (key : string) (val : PdfObject) (streamObj : PdfObjectStream)
  : PdfObjectStream :=
  mkStream (<[key := val]> (StreamDictionary streamObj)) (Stream streamObj).

(* ===================================================================== *)
(** ** Outcomes *)
(* ===================================================================== *)

Inductive Outcome (A : Type) : Type :=
  | Ok (a : A)
  | Err (msg : string)
  | Panic (msg : string).
Arguments Ok {A} a.
Arguments Err {A} msg.
Arguments Panic {A} msg.

(** The caller got a value back ([err == nil]). *)
Definition succeeded {A} (r : Outcome A) : bool :=
  match r with Ok _ => true | _ => false end.

(** The caller got an error value back: the call returned. *)
Definition returned_error {A} (r : Outcome A) : bool :=
  match r with Err _ => true | _ => false end.

(** The call did not return: the goroutine panicked. *)
Definition panicked {A} (r : Outcome A) : bool :=
  match r with Panic _ => true | _ => false end.

(** Forget the value of an outcome, keeping error or panic. *)
Definition outcome_unit {A} (r : Outcome A) : Outcome unit :=
  match r with
  | Ok _ => Ok tt
  | Err msg => Err msg
  | Panic msg => Panic msg
  end.

(* ===================================================================== *)
(** ** Encoders and the codec boundary *)
(* ===================================================================== *)

Section StreamFilters.

(** The parameters an encoder carries to its codec.  The encoder structs
    are declared outside the embedded files; only the field
    [LZWEncoder.EarlyChange] is touched by [EncodeStream]. *)
Context {CodecParams : Type}.

(** Modelled from the spec: the LZW encoder of section 3, with its
    early-change parameter, the code's field [EarlyChange]. *)
Record LZWEncoder : Type := mkLZW {
  LZWParams : CodecParams;
  EarlyChange : Z
}.

(** Modelled from the spec: the encoders of section 3.  [StreamEncoder] is
    an interface in Go; its implementations are the closed set selected by
    [NewEncoderFromStream], and [EncodeStream] asks for the dynamic type
    [*LZWEncoder]. *)
Inductive StreamEncoder : Type :=
  | RawEncoder
  | FlateEncoder (p : CodecParams)
  | LZWEncoderOf (lzwenc : LZWEncoder)
  | DCTEncoder (p : CodecParams)
  | RunLengthEncoder (p : CodecParams)
  | ASCIIHexEncoder
  | ASCII85Encoder
  | CCITTFaxEncoder
  | JBIG2Encoder
  | JPXEncoder
  | MultiEncoder (encoders : list StreamEncoder).

(** The filter name constants compared against [*method]; declared outside
    the embedded files, hence parameters. *)
Class FilterNames : Type := {
  StreamEncodingFilterNameFlate : string;
  StreamEncodingFilterNameLZW : string;
  StreamEncodingFilterNameDCT : string;
  StreamEncodingFilterNameRunLength : string;
  StreamEncodingFilterNameASCIIHex : string;
  StreamEncodingFilterNameASCII85 : string;
  StreamEncodingFilterNameCCITTFax : string;
  StreamEncodingFilterNameJBIG2 : string;
  StreamEncodingFilterNameJPX : string
}.

(** The per-filter constructors that read the stream, each with the Go
    result type it has at its call site, and the two methods of the
    [StreamEncoder] interface.  All of them live outside the embedded files
    and are consumed through this interface only.  The second argument of
    the constructors is [nil] at every call site here and is left out. *)
Class Codecs : Type := {
  newFlateEncoderFromStream : PdfObjectStream -> Outcome CodecParams;
  newLZWEncoderFromStream : PdfObjectStream -> Outcome LZWEncoder;
  newDCTEncoderFromStream : PdfObjectStream -> Outcome CodecParams;
  newRunLengthEncoderFromStream : PdfObjectStream -> Outcome CodecParams;
  newMultiEncoderFromStream : PdfObjectStream -> Outcome (list StreamEncoder);
  EncodeBytes : StreamEncoder -> list byte -> Outcome (list byte);
  DecodeStreamWith : StreamEncoder -> PdfObjectStream -> Outcome (list byte)
}.

Context `{FilterNames} `{Codecs}.

(** Convert a constructor's typed result to [(StreamEncoder, error)]. *)
Definition as_encoder {A} (wrap : A -> StreamEncoder) (r : Outcome A)
  : Outcome StreamEncoder :=
  match r with
  | Ok a => Ok (wrap a)
  | Err msg => Err msg
  | Panic msg => Panic msg
  end.

(** [fmt.Errorf("Unsupported encoding method (%s)", *method)]. *)
Definition unsupported_method (method : string) : string :=
  String.append "Unsupported encoding method (" (String.append method ")").

(** The supported filter names, in the order the chain tests them. *)
Definition supported_names : list string :=
  [ StreamEncodingFilterNameFlate; StreamEncodingFilterNameLZW;
    StreamEncodingFilterNameDCT; StreamEncodingFilterNameRunLength;
    StreamEncodingFilterNameASCIIHex; StreamEncodingFilterNameASCII85;
    StreamEncodingFilterNameCCITTFax; StreamEncodingFilterNameJBIG2;
    StreamEncodingFilterNameJPX ].

(** The conditional chain on [*method] that ends [NewEncoderFromStream]
    (stream.go, lines 58 to 82).  In the last branch [panic(err)] comes
    before [return nil, err], so the return is never reached. *)
Definition encoderForMethod (method : string) (streamObj : PdfObjectStream)
  : Outcome StreamEncoder :=
  if String.eqb method StreamEncodingFilterNameFlate then
    as_encoder FlateEncoder (newFlateEncoderFromStream streamObj)
  else if String.eqb method StreamEncodingFilterNameLZW then
    as_encoder LZWEncoderOf (newLZWEncoderFromStream streamObj)
  else if String.eqb method StreamEncodingFilterNameDCT then
    as_encoder DCTEncoder (newDCTEncoderFromStream streamObj)
  else if String.eqb method StreamEncodingFilterNameRunLength then
    as_encoder RunLengthEncoder (newRunLengthEncoderFromStream streamObj)
  else if String.eqb method StreamEncodingFilterNameASCIIHex then
    Ok ASCIIHexEncoder
  else if String.eqb method StreamEncodingFilterNameASCII85 then
    Ok ASCII85Encoder
  else if String.eqb method StreamEncodingFilterNameCCITTFax then
    Ok CCITTFaxEncoder
  else if String.eqb method StreamEncodingFilterNameJBIG2 then
    Ok JBIG2Encoder
  else if String.eqb method StreamEncodingFilterNameJPX then
    Ok JPXEncoder
  else
    Panic (unsupported_method method).

(** [NewEncoderFromStream] (stream.go, lines 16 to 83). *)
Definition NewEncoderFromStream (streamObj : PdfObjectStream)
  : Outcome StreamEncoder :=
  match Get "Filter" streamObj with
  | None => Ok RawEncoder
  | Some PdfObjectNull => Ok RawEncoder
  | Some (PdfObjectName method) => encoderForMethod method streamObj
  | Some (PdfObjectArray array) =>
      match array with
      | [] => Ok RawEncoder
      | [filterObj] =>
          match filterObj with
          | PdfObjectName method => encoderForMethod method streamObj
          | _ => Err "Filter array member not a Name object"
          end
      | _ => as_encoder MultiEncoder (newMultiEncoderFromStream streamObj)
      end
  | Some _ => Err "Filter not a Name or Array object"
  end.

(** [DecodeStream] (stream.go, lines 87 to 105). *)
Definition DecodeStream (streamObj : PdfObjectStream) : Outcome (list byte) :=
  match NewEncoderFromStream streamObj with
  | Ok encoder => DecodeStreamWith encoder streamObj
  | Err msg => Err msg
  | Panic msg => Panic msg
  end.

(** [EncodeStream] (stream.go, lines 109 to 138).  The result pairs the
    outcome with the stream object as the call leaves it. *)
Definition EncodeStream (streamObj : PdfObjectStream)
  : Outcome unit * PdfObjectStream :=
  match NewEncoderFromStream streamObj with
  | Err msg => (Err msg, streamObj)
  | Panic msg => (Panic msg, streamObj)
  | Ok encoder =>
      let '(encoder, streamObj) :=
        match encoder with
        | LZWEncoderOf lzwenc =>
            (LZWEncoderOf (mkLZW (LZWParams lzwenc) 0),
             Set_ "EarlyChange" (MakeInteger 0) streamObj)
        | _ => (encoder, streamObj)
        end in
      match EncodeBytes encoder (Stream streamObj) with
      | Err msg => (Err msg, streamObj)
      | Panic msg => (Panic msg, streamObj)
      | Ok encoded =>
          let streamObj := mkStream (StreamDictionary streamObj) encoded in
          (Ok tt,
           Set_ "Length" (MakeInteger (Z.of_nat (length encoded))) streamObj)
      end
  end.

(** The constructors that read the stream hand back a value or an error,
    as a Go function with an [error] result is meant to. *)
Definition constructors_return : Prop :=
  (forall s, panicked (newFlateEncoderFromStream s) = false) /\
  (forall s, panicked (newLZWEncoderFromStream s) = false) /\
  (forall s, panicked (newDCTEncoderFromStream s) = false) /\
  (forall s, panicked (newRunLengthEncoderFromStream s) = false) /\
  (forall s, panicked (newMultiEncoderFromStream s) = false).

End StreamFilters.

Arguments LZWEncoder : clear implicits.
Arguments StreamEncoder : clear implicits.
Arguments Codecs : clear implicits.

(* ===================================================================== *)
(** ** Positional reader *)
(* ===================================================================== *)

(** [this.rs], an [io.ReadSeeker] of Go's standard library, here the
    seekable byte source of section 6 of the spec: the bytes of the document
    and a seek position.  [rs_chunk] is the most bytes one [Read] call hands
    out; a file may return fewer bytes than asked for, an in-memory reader
    returns all it has.  The position never goes below zero, since [Seek]
    refuses such a target. *)
Record ReadSeeker : Type := mkReadSeeker {
  rs_data : list byte;
  rs_pos : nat;
  rs_chunk : nat
}.

Inductive Whence : Type := SEEK_SET | SEEK_CUR | SEEK_END.

(** [rs.Seek(offset, whence)]: the new absolute position, or an error and an
    unmoved source when the target lies before the start. *)
Definition Seek (offset : Z) (whence : Whence) (rs : ReadSeeker)
  : Outcome Z * ReadSeeker :=
  let abs :=
    match whence with
    | SEEK_SET => offset
    | SEEK_CUR => (Z.of_nat (rs_pos rs) + offset)%Z
    | SEEK_END => (Z.of_nat (length (rs_data rs)) + offset)%Z
    end in
  if (abs <? 0)%Z then (Err "negative position", rs)
  else (Ok abs, mkReadSeeker (rs_data rs) (Z.to_nat abs) (rs_chunk rs)).

(** [rs.Read(b)] with [len(b) = n]: the bytes copied into the front of [b]
    and the error, [io.EOF] once the position is at or past the end. *)
Definition sourceRead (n : nat) (rs : ReadSeeker)
  : list byte * option string * ReadSeeker :=
  if length (rs_data rs) <=? rs_pos rs then ([], Some "EOF", rs)
  else
    let got := take (n `min` rs_chunk rs) (drop (rs_pos rs) (rs_data rs)) in
    (got, None,
     mkReadSeeker (rs_data rs) (rs_pos rs + length got) (rs_chunk rs)).

(** [this.reader], a [*bufio.Reader] over [this.rs]: the bytes read ahead
    and not yet consumed ([b.buf[b.r:b.w]]) and the size of its buffer
    ([len(b.buf)]).  The sticky [b.err] is always clear between calls
    because [sourceRead] never returns bytes together with an error. *)
Record BufReader : Type := mkBufReader {
  br_unread : list byte;
  br_size : nat
}.

Definition defaultBufSize : nat := 4096.

(** [bufio.NewReader(rs)]. *)
Definition NewReader : BufReader := mkBufReader [] defaultBufSize.

(** [reader.Buffered()]. *)
Definition Buffered (reader : BufReader) : nat := length (br_unread reader).

(** The two fields of [PdfParser] the positional reader uses.  The buffered
    reader reads from the very [rs] the parser seeks on, so both are kept in
    one state. *)
Record PdfParser : Type := mkParser {
  rs : ReadSeeker;
  reader : BufReader
}.

(** [this.reader.Read(b)] with [len(b) = n], after [bufio.Reader.Read]: an
    empty [b] reads nothing; unread bytes are handed out first; on an empty
    buffer a request of at least the buffer size goes to the source
    directly, a smaller one fills the buffer with a single source read. *)
Definition readerRead (n : nat) (this : PdfParser)
  : list byte * option string * PdfParser :=
  match n with
  | O => ([], None, this)
  | S _ =>
      match br_unread (reader this) with
      | [] =>
          if br_size (reader this) <=? n then
            let '(got, err, rs') := sourceRead n (rs this) in
            (got, err, mkParser rs' (reader this))
          else
            let '(got, err, rs') := sourceRead (br_size (reader this)) (rs this) in
            match got with
            | [] => ([], err, mkParser rs' (reader this))
            | _ =>
                (take n got, None,
                 mkParser rs' (mkBufReader (drop n got) (br_size (reader this))))
            end
      | unread =>
          (take n unread, None,
           mkParser (rs this)
             (mkBufReader (drop n unread) (br_size (reader this))))
      end
  end.

(** [copy(p[start:], got)]: the slice after the write. *)
Definition write_at (p : list byte) (start : nat) (got : list byte) : list byte :=
  take start p ++ got ++ drop (start + length got) p.

(** The loop of [ReadAtLeast]; [None] stands for a loop that has not left
    after [fuel] rounds.  The result is Go's [(int, error)], the slice [p]
    as the call leaves it, and the parser.  [start] never passes the length
    of [p], a read handing out no more than the slice it is given holds, so
    [p[start:]] is always in range. *)
Fixpoint ReadAtLeast_loop (fuel : nat) (p : list byte) (remaining : Z)
    (start : nat) (this : PdfParser)
  : option (nat * option string * list byte * PdfParser) :=
  if (remaining <=? 0)%Z then Some (start, None, p, this)
  else
    match fuel with
    | O => None
    | S fuel' =>
        let '(got, err, this') := readerRead (length p - start) this in
        let p' := write_at p start got in
        match err with
        | Some _ => Some (start, Some "Failed reading", p', this')
        | None =>
            ReadAtLeast_loop fuel' p' (remaining - Z.of_nat (length got))%Z
              (start + length got) this'
        end
    end.

(** [ReadAtLeast] (lines 154 to 169). *)
Definition ReadAtLeast (fuel : nat) (p : list byte) (n : Z) (this : PdfParser)
  : option (nat * option string * list byte * PdfParser) :=
  ReadAtLeast_loop fuel p n 0 this.

(** [GetFileOffset] (lines 172 to 176).  [Seek(0, SEEK_CUR)] cannot fail and
    leaves the source where it is; the difference stays within int64, the
    buffer never holding more than a buffer size of bytes. *)
Definition GetFileOffset (this : PdfParser) : Z :=
  let offset :=
    match fst (Seek 0 SEEK_CUR (rs this)) with
    | Ok offset => offset
    | _ => 0%Z
    end in
  (offset - Z.of_nat (Buffered (reader this)))%Z.

(** [SetFileOffset] (lines 179 to 182): the error of [Seek] is dropped, the
    reader is replaced by a fresh one either way. *)
Definition SetFileOffset (offset : Z) (this : PdfParser) : PdfParser :=
  mkParser (snd (Seek offset SEEK_SET (rs this))) NewReader.

(** What the caller will be handed by the reads to come: the bytes read
    ahead, then the source from its position on. *)
Definition upcoming (this : PdfParser) : list byte :=
  br_unread (reader this) ++ drop (rs_pos (rs this)) (rs_data (rs this)).

(** A run of [this.reader.Read] calls with the given slice lengths: the bytes
    handed to the caller, in order, and the parser afterwards. *)
Fixpoint readAll (sizes : list nat) (this : PdfParser) : list byte * PdfParser :=
  match sizes with
  | [] => ([], this)
  | n :: sizes' =>
      let '(got, _, this') := readerRead n this in
      let '(rest, this'') := readAll sizes' this' in
      (got ++ rest, this'')
  end.

(** The reads to come start at the logical position: the upcoming bytes are
    the data of the source from [GetFileOffset] on. *)
Definition reader_consistent (this : PdfParser) : Prop :=
  (0 <= GetFileOffset this)%Z /\
  upcoming this = drop (Z.to_nat (GetFileOffset this)) (rs_data (rs this)).

(* ===================================================================== *)
(** ** Cross-reference index and reference resolution *)
(* ===================================================================== *)

(** Modelled from the spec: the cross-reference entry of section 3, which
    the embedded files only use through the tests' [parser.xrefs].  An
    object number maps to a free slot, a byte offset, or a place inside an
    object stream; the generation number plays no part in the lookup. *)
Inductive XrefEntry : Type :=
  | XrefFree
  | XrefOffset (offset : Z)
  | XrefCompressed (objstm index : Z).

(** Modelled from the spec: what the external object parser of section 6
    yields when it reads one indirect object: its header, its value, and,
    when the keyword [stream] follows, the bytes after that keyword. *)
Record ParsedObject : Type := mkParsed {
  obj_number : Z;
  obj_generation : Z;
  obj_value : PdfObject;
  obj_payload : option (list byte)
}.

(** Modelled from the spec: the failures of one indirect-object parse
    (section 7, kinds (c) and (e), and the malformed cases of section 3). *)
Inductive ResolveError : Type :=
  | CircularLengthReference
  | NoObjectAtOffset
  | StreamWithoutDictionary
  | StreamLengthMissing
  | StreamLengthNotInteger
  | StreamShortRead.

(** Modelled from the spec: the result [(Object, error)] of [Resolve] and
    of the parse of one indirect object. *)
Inductive Resolution : Type :=
  | Resolved (value : PdfObject)
  | Failed (e : ResolveError).

Section Resolver.

(** The index, the object parser started at a byte offset, and the lookup
    inside an object stream. *)
Variable xrefs : gmap Z XrefEntry.
Variable objectAt : Z -> option ParsedObject.
Variable objectInStream : Z -> Z -> option PdfObject.

(** Modelled from the spec: [Resolve] of section 4.4, the library's [Trace],
    which is not among the embedded files.  [parse] is the parse of one
    indirect object at an offset.  A value that is no reference comes back
    unchanged; a reference whose number is absent from the index, or whose
    target cannot be located, is Null without error; otherwise the object at
    the recorded location is parsed and its value returned. *)
Definition ResolveWith (parse : Z -> option Resolution) (value : PdfObject)
  : option Resolution :=
  match value with
  | PdfObjectReference number _ =>
      match xrefs !! number with
      | None => Some (Resolved PdfObjectNull)
      | Some XrefFree => Some (Resolved PdfObjectNull)
      | Some (XrefOffset offset) =>
          match parse offset with
          | Some (Failed NoObjectAtOffset) => Some (Resolved PdfObjectNull)
          | r => r
          end
      | Some (XrefCompressed objstm index) =>
          match objectInStream objstm index with
          | Some v => Some (Resolved v)
          | None => Some (Resolved PdfObjectNull)
          end
      end
  | _ => Some (Resolved value)
  end.

(** Modelled from the spec: the parse of one indirect object with the cycle
    guard of section 4.4, the library's [ParseIndirectObject], which is not
    among the embedded files.  [inflight] is the in-flight resolution set,
    handed down the call chain as section 9 has it.  Before the [Length]
    reference of a stream is followed its object number is looked up in the
    set: when present the parse fails at once, otherwise the number is
    recorded for the calls below.  [None] stands for a recursion deeper than
    [fuel]. *)
Fixpoint parseIndirectObject (fuel : nat) (inflight : gset Z) (offset : Z)
  : option Resolution :=
  match fuel with
  | O => None
  | S fuel' =>
      match objectAt offset with
      | None => Some (Failed NoObjectAtOffset)
      | Some parsed =>
          match obj_payload parsed with
          | None => Some (Resolved (obj_value parsed))
          | Some bytes =>
              match obj_value parsed with
              | PdfObjectDictionary dict =>
                  let len :=
                    match dict !! "Length" with
                    | None => Some (Failed StreamLengthMissing)
                    | Some (PdfObjectReference number gen) =>
                        if decide (number ∈ inflight)
                        then Some (Failed CircularLengthReference)
                        else ResolveWith
                               (parseIndirectObject fuel' ({[number]} ∪ inflight))
                               (PdfObjectReference number gen)
                    | Some v => Some (Resolved v)
                    end in
                  match len with
                  | None => None
                  | Some (Failed e) => Some (Failed e)
                  | Some (Resolved (PdfObjectInteger n)) =>
                      if ((0 <=? n) && (n <=? Z.of_nat (length bytes)))%Z
                      then Some (Resolved
                                   (PdfObjectStreamValue dict (take (Z.to_nat n) bytes)))
                      else Some (Failed StreamShortRead)
                  | Some (Resolved _) => Some (Failed StreamLengthNotInteger)
                  end
              | _ => Some (Failed StreamWithoutDictionary)
              end
          end
      end
  end.

(** Modelled from the spec: the top-level parse of the indirect object at
    [offset]; the in-flight set is created empty for this call and gone when
    it returns. *)
Definition ParseIndirectObject (fuel : nat) (offset : Z) : option Resolution :=
  parseIndirectObject fuel ∅ offset.

(** Modelled from the spec: a top-level [Resolve] request. *)
Definition Trace (fuel : nat) (value : PdfObject) : option Resolution :=
  ResolveWith (ParseIndirectObject fuel) value.

End Resolver.

(* ===================================================================== *)
(** ** Bezier curves and paths (package draw) *)
(* ===================================================================== *)

Module draw.

Import PrimFloat.

(** A float64 is a primitive binary64 float: [+], [-], [*] and [<] round and
    compare as Go's do.  [Point], [Rectangle] and [model.PdfRectangle] are
    declared outside the embedded files; their fields are the ones the code
    reads and writes. *)
Record Point : Type := mkPoint { X : float; Y : float }.

Record CubicBezierCurve : Type := mkCurve {
  P0 : Point;
  P1 : Point;
  P2 : Point;
  P3 : Point
}.

Record PdfRectangle : Type := mkPdfRectangle {
  Llx : float;
  Lly : float;
  Urx : float;
  Ury : float
}.

Record Rectangle : Type := mkRectangle {
  Rectangle_X : float;
  Rectangle_Y : float;
  Width : float;
  Height : float
}.

Section Bounds.

Local Open Scope float_scope.

(** [AddOffsetXY] (lines 160 to 172): the receiver is a copy, which is
    changed and returned. *)
Definition AddOffsetXY (curve : CubicBezierCurve) (dX dY : float)
  : CubicBezierCurve :=
  mkCurve
    (mkPoint (X (P0 curve) + dX) (Y (P0 curve) + dY))
    (mkPoint (X (P1 curve) + dX) (Y (P1 curve) + dY))
    (mkPoint (X (P2 curve) + dX) (Y (P2 curve) + dY))
    (mkPoint (X (P3 curve) + dX) (Y (P3 curve) + dY)).

(** The four running extremes of [GetBounds] and of [GetBoundingBox]. *)
Record Extent : Type := mkExtent {
  minX : float;
  maxX : float;
  minY : float;
  maxY : float
}.

(** The four conditional updates both loops end with: [lowX], [highX],
    [lowY] and [highY] are compared with the running extremes. *)
Definition widen (lowX highX lowY highY : float) (e : Extent) : Extent :=
  mkExtent
    (if lowX <? minX e then lowX else minX e)
    (if maxX e <? highX then highX else maxX e)
    (if lowY <? minY e then lowY else minY e)
    (if maxY e <? highY then highY else maxY e).

(** [math.Pow], of Go's standard library. *)
Variable Pow : float -> float -> float.

(** [Rx] and [Ry] of [GetBounds] at the parameter [t] (lines 183 to 190),
    each operation rounding on its own. *)
Definition Rx (curve : CubicBezierCurve) (t : float) : float :=
  X (P0 curve) * Pow (1 - t) 3 +
  X (P1 curve) * 3 * t * Pow (1 - t) 2 +
  X (P2 curve) * 3 * Pow t 2 * (1 - t) +
  X (P3 curve) * Pow t 3.

Definition Ry (curve : CubicBezierCurve) (t : float) : float :=
  Y (P0 curve) * Pow (1 - t) 3 +
  Y (P1 curve) * 3 * t * Pow (1 - t) 2 +
  Y (P2 curve) * 3 * Pow t 2 * (1 - t) +
  Y (P3 curve) * Pow t 3.

(** The loop of [GetBounds] (lines 182 to 204), from the parameter [t] on;
    [None] stands for a loop that has not left after [fuel] rounds. *)
Fixpoint GetBounds_loop (fuel : nat) (curve : CubicBezierCurve) (t : float)
    (e : Extent) : option Extent :=
  if t <=? 1 then
    match fuel with
    | O => None
    | S fuel' =>
        GetBounds_loop fuel' curve (t + 0.001)
          (widen (Rx curve t) (Rx curve t) (Ry curve t) (Ry curve t) e)
    end
  else Some e.

(** [GetBounds] (lines 175 to 212). *)
Definition GetBounds (fuel : nat) (curve : CubicBezierCurve) : option PdfRectangle :=
  let start :=
    mkExtent (X (P0 curve)) (X (P0 curve)) (Y (P0 curve)) (Y (P0 curve)) in
  match GetBounds_loop fuel curve 0 start with
  | Some e => Some (mkPdfRectangle (minX e) (minY e) (maxX e) (maxY e))
  | None => None
  end.

(** The loop of [GetBoundingBox] (lines 269 to 283) over the curves left. *)
Fixpoint GetBoundingBox_loop (fuel : nat) (curves : list CubicBezierCurve)
    (e : Extent) : option Extent :=
  match curves with
  | [] => Some e
  | c :: curves' =>
      match GetBounds fuel c with
      | Some curveBounds =>
          GetBoundingBox_loop fuel curves'
            (widen (Llx curveBounds) (Urx curveBounds)
                   (Lly curveBounds) (Ury curveBounds) e)
      | None => None
      end
  end.

(** The extremes [GetBoundingBox] has when its loop is done (lines 263 to
    283), for a path that is not empty. *)
Definition boundingExtent (fuel : nat) (curves : list CubicBezierCurve)
  : option Extent :=
  match curves with
  | [] => None
  | first :: _ =>
      match GetBounds fuel first with
      | Some curveBounds =>
          GetBoundingBox_loop fuel curves
            (mkExtent (Llx curveBounds) (Urx curveBounds)
                      (Lly curveBounds) (Ury curveBounds))
      | None => None
      end
  end.

(** [GetBoundingBox] (lines 257 to 290), on the curves of the path. *)
Definition GetBoundingBoxOf (fuel : nat) (curves : list CubicBezierCurve)
  : option Rectangle :=
  match curves with
  | [] => Some (mkRectangle 0 0 0 0)
  | _ =>
      match boundingExtent fuel curves with
      | Some e =>
          Some (mkRectangle (minX e) (minY e) (maxX e - minX e) (maxY e - minY e))
      | None => None
      end
  end.

(** The parameters the loop of [GetBounds] visits from [t] on. *)
Fixpoint parameters (fuel : nat) (t : float) : option (list float) :=
  if t <=? 1 then
    match fuel with
    | O => None
    | S fuel' =>
        match parameters fuel' (t + 0.001) with
        | Some ts => Some (t :: ts)
        | None => None
        end
    end
  else Some [].

(** One conditional update of a running minimum, and of a running
    maximum, as [widen] makes them. *)
Definition lower (m v : float) : float := if v <? m then v else m.

Definition upper (m v : float) : float := if m <? v then v else m.

(** [GetBounds] as a pass over given parameters. *)
Definition boundsOver (curve : CubicBezierCurve) (ts : list float) : PdfRectangle :=
  let start :=
    mkExtent (X (P0 curve)) (X (P0 curve)) (Y (P0 curve)) (Y (P0 curve)) in
  let e :=
    fold_left
      (fun e t => widen (Rx curve t) (Rx curve t) (Ry curve t) (Ry curve t) e)
      ts start in
  mkPdfRectangle (minX e) (minY e) (maxX e) (maxY e).

(** The parameters [GetBounds] visits, as 1000 rounds of its loop give
    them. *)
Definition visited : list float := default [] (parameters 1000 0).

End Bounds.

(** *** Slices of curves *)

(** A Go slice of curves: the address of its backing array, its length and
    its capacity. *)
Record Slice : Type := mkSlice { arr : nat; len : nat; cap : nat }.

(** [CubicBezierPath]. *)
Record CubicBezierPath : Type := mkPath { Curves : Slice }.

(** The zero value of a curve, which fills newly allocated arrays. *)
Definition zeroCurve : CubicBezierCurve :=
  mkCurve (mkPoint 0 0) (mkPoint 0 0) (mkPoint 0 0) (mkPoint 0 0).

(** The backing array at an address of the heap, a map from addresses to
    arrays. *)
Definition array_at (h : gmap nat (list CubicBezierCurve)) (a : nat)
  : list CubicBezierCurve :=
  default [] (h !! a).

(** [s[i]] for an index within the array. *)
Definition read (h : gmap nat (list CubicBezierCurve)) (s : Slice) (i : nat)
  : CubicBezierCurve :=
  default zeroCurve (array_at h (arr s) !! i).

(** [s[i] = c]. *)
Definition write (h : gmap nat (list CubicBezierCurve)) (s : Slice) (i : nat)
    (c : CubicBezierCurve) : gmap nat (list CubicBezierCurve) :=
  <[arr s := <[i := c]> (array_at h (arr s))]> h.

(** The curves a slice shows: the first [len] ones of its array. *)
Definition elements (h : gmap nat (list CubicBezierCurve)) (s : Slice)
  : list CubicBezierCurve :=
  take (len s) (array_at h (arr s)).

(** The slice literal [[]CubicBezierCurve{}]: no array behind it. *)
Definition emptySlice : Slice := mkSlice 0 0 0.

(** A slice fits the heap when its length is within its capacity and, with
    a capacity above zero, its array is there and of that capacity. *)
Definition slice_wf (h : gmap nat (list CubicBezierCurve)) (s : Slice) : Prop :=
  len s <= cap s /\ (0 < cap s -> length (array_at h (arr s)) = cap s).

Section Paths.

(** The capacity Go's runtime gives the new array when a slice of the given
    capacity is full. *)
Variable growslice : nat -> nat.

(** [append(s, c)]: with room left the curve goes into the array behind [s],
    otherwise into a newly allocated array that starts with the curves of
    [s]. *)
Definition append (h : gmap nat (list CubicBezierCurve)) (s : Slice)
    (c : CubicBezierCurve) : Slice * gmap nat (list CubicBezierCurve) :=
  if len s <? cap s then
    (mkSlice (arr s) (S (len s)) (cap s), write h s (len s) c)
  else
    let newcap := growslice (cap s) in
    let a := fresh (dom h) in
    (mkSlice a (S (len s)) newcap,
     <[a := elements h s ++ c :: replicate (newcap - S (len s)) zeroCurve]> h).

(** [NewCubicBezierPath] (lines 220 to 224). *)
Definition NewCubicBezierPath : CubicBezierPath := mkPath emptySlice.

(** [AppendCurve] (lines 227 to 230): the receiver is a copy of the path
    value, the array behind its slice is not. *)
Definition AppendCurve (h : gmap nat (list CubicBezierCurve))
    (bpath : CubicBezierPath) (curve : CubicBezierCurve)
  : CubicBezierPath * gmap nat (list CubicBezierCurve) :=
  let '(curves, h') := append h (Curves bpath) curve in
  (mkPath curves, h').

(** The loop of [Copy] (lines 236 to 238): [n] rounds are left, the next
    one reads [src[i]]. *)
Fixpoint Copy_loop (n i : nat) (src dst : Slice)
    (h : gmap nat (list CubicBezierCurve))
  : Slice * gmap nat (list CubicBezierCurve) :=
  match n with
  | O => (dst, h)
  | S n' =>
      let '(dst', h') := append h dst (read h src i) in
      Copy_loop n' (S i) src dst' h'
  end.

(** [Copy] (lines 233 to 240). *)
Definition Copy (h : gmap nat (list CubicBezierCurve)) (bpath : CubicBezierPath)
  : CubicBezierPath * gmap nat (list CubicBezierCurve) :=
  let '(curves, h') :=
    Copy_loop (len (Curves bpath)) 0 (Curves bpath) emptySlice h in
  (mkPath curves, h').

(** The loop of [Offset] (lines 245 to 247): [n] rounds are left, the next
    one reads and writes [s[i]]. *)
Fixpoint Offset_loop (n i : nat) (s : Slice) (dX dY : float)
    (h : gmap nat (list CubicBezierCurve)) : gmap nat (list CubicBezierCurve) :=
  match n with
  | O => h
  | S n' =>
      Offset_loop n' (S i) s dX dY (write h s i (AddOffsetXY (read h s i) dX dY))
  end.

(** [Offset] (lines 244 to 249): the path value is returned as it came. *)
Definition Offset (h : gmap nat (list CubicBezierCurve)) (bpath : CubicBezierPath)
    (dX dY : float) : CubicBezierPath * gmap nat (list CubicBezierCurve) :=
  (bpath, Offset_loop (len (Curves bpath)) 0 (Curves bpath) dX dY h).

(** [Length] (lines 252 to 254). *)
Definition Length (bpath : CubicBezierPath) : nat := len (Curves bpath).

End Paths.

(** [GetBoundingBox] (lines 257 to 290) reads the curves of the path. *)
Definition GetBoundingBox (Pow : float -> float -> float) (fuel : nat)
    (h : gmap nat (list CubicBezierCurve)) (bpath : CubicBezierPath)
  : option Rectangle :=
  GetBoundingBoxOf Pow fuel (elements h (Curves bpath)).

End draw.

(* ===================================================================== *)
(** ** Sample data *)
(* ===================================================================== *)

(** The filter names of the document format. *)
Definition pdfFilterNames : FilterNames := {|
  StreamEncodingFilterNameFlate := "FlateDecode";
  StreamEncodingFilterNameLZW := "LZWDecode";
  StreamEncodingFilterNameDCT := "DCTDecode";
  StreamEncodingFilterNameRunLength := "RunLengthDecode";
  StreamEncodingFilterNameASCIIHex := "ASCIIHexDecode";
  StreamEncodingFilterNameASCII85 := "ASCII85Decode";
  StreamEncodingFilterNameCCITTFax := "CCITTFaxDecode";
  StreamEncodingFilterNameJBIG2 := "JBIG2Decode";
  StreamEncodingFilterNameJPX := "JPXDecode"
|}.

(** Codecs without parameters that leave the bytes as they are; the LZW
    constructor reads early change 1, the default of the format. *)
Definition identityCodecs : Codecs unit := {|
  newFlateEncoderFromStream := fun _ => Ok tt;
  newLZWEncoderFromStream := fun _ => Ok (mkLZW tt 1);
  newDCTEncoderFromStream := fun _ => Ok tt;
  newRunLengthEncoderFromStream := fun _ => Ok tt;
  newMultiEncoderFromStream := fun _ => Ok [];
  EncodeBytes := fun _ data => Ok data;
  DecodeStreamWith := fun _ streamObj => Ok (Stream streamObj)
|}.

(** The same codecs, except that every encode operation reports a failure. *)
Definition rejectingCodecs : Codecs unit := {|
  newFlateEncoderFromStream := fun _ => Ok tt;
  newLZWEncoderFromStream := fun _ => Ok (mkLZW tt 1);
  newDCTEncoderFromStream := fun _ => Ok tt;
  newRunLengthEncoderFromStream := fun _ => Ok tt;
  newMultiEncoderFromStream := fun _ => Ok [];
  EncodeBytes := fun _ _ => Err "encode failed";
  DecodeStreamWith := fun _ streamObj => Ok (Stream streamObj)
|}.

(** Codecs whose encode operation writes the bytes twice, so that an encoded
    payload differs from the raw one in content and in length. *)
Definition doublingCodecs : Codecs unit := {|
  newFlateEncoderFromStream := fun _ => Ok tt;
  newLZWEncoderFromStream := fun _ => Ok (mkLZW tt 1);
  newDCTEncoderFromStream := fun _ => Ok tt;
  newRunLengthEncoderFromStream := fun _ => Ok tt;
  newMultiEncoderFromStream := fun _ => Ok [];
  EncodeBytes := fun _ data => Ok (data ++ data);
  DecodeStreamWith := fun _ streamObj => Ok (Stream streamObj)
|}.

Definition bytes_abcd : list byte := [x61; x62; x63; x64]%byte.

(** A stream filtered by Flate, with four bytes of payload. *)
Definition flateStream : PdfObjectStream :=
  mkStream
    (<["Filter" := PdfObjectName "FlateDecode"]> {["Length" := PdfObjectInteger 4]})
    bytes_abcd.

(** A stream without [Filter] entry. *)
Definition plainStream : PdfObjectStream :=
  mkStream {["Length" := PdfObjectInteger 4]} bytes_abcd.

(** A stream filtered by LZW whose dictionary asks for early change 1. *)
Definition lzwStream : PdfObjectStream :=
  mkStream
    (<["Filter" := PdfObjectName "LZWDecode"]>
       (<["EarlyChange" := PdfObjectInteger 1]>
          {["Length" := PdfObjectInteger 4]}))
    bytes_abcd.

(** A stream filtered by LZW without [EarlyChange] entry. *)
Definition lzwStreamNoEarlyChange : PdfObjectStream :=
  mkStream
    (<["Filter" := PdfObjectName "LZWDecode"]> {["Length" := PdfObjectInteger 4]})
    bytes_abcd.

(** Streams naming a filter the library does not know, in both shapes. *)
Definition unknownFilterStream : PdfObjectStream :=
  mkStream {["Filter" := PdfObjectName "Foo"]} bytes_abcd.

Definition unknownFilterArrayStream : PdfObjectStream :=
  mkStream {["Filter" := PdfObjectArray [PdfObjectName "Foo"]]} bytes_abcd.

(** An in-memory source holding [abcd], and a parser at its start. *)
Definition source_abcd : ReadSeeker := mkReadSeeker bytes_abcd 0 4.

Definition parser_abcd : PdfParser := mkParser source_abcd NewReader.

(** The document of [TestFuzzSelfReference1]: object 13 at offset 0 is a
    stream whose [Length] is [13 0 R], and the index sends 13 to offset 0. *)
Definition payload_xxx : list byte :=
  [x78; x78; x78; x0a; x65; x6e; x64; x73; x74; x72; x65; x61; x6d; x0a]%byte.

Definition selfReference1_objectAt (offset : Z) : option ParsedObject :=
  if (offset =? 0)%Z then
    Some (mkParsed 13 0
            (PdfObjectDictionary {["Length" := PdfObjectReference 13 0]})
            (Some payload_xxx))
  else None.

Definition selfReference1_xrefs : gmap Z XrefEntry := {[13%Z := XrefOffset 0]}.

(** The document of [TestFuzzSelfReference2]: the [Length] of object 13 is
    [12 0 R], and the index sends 12 to offset 0, where object 13 starts. *)
Definition selfReference2_objectAt (offset : Z) : option ParsedObject :=
  if (offset =? 0)%Z then
    Some (mkParsed 13 0
            (PdfObjectDictionary {["Length" := PdfObjectReference 12 0]})
            (Some payload_xxx))
  else None.

Definition selfReference2_xrefs : gmap Z XrefEntry := {[12%Z := XrefOffset 0]}.

Definition noObjectStreams (objstm index : Z) : option PdfObject := None.

Section DrawSamples.

Import PrimFloat.

(** A stand-in for [math.Pow] that multiplies out the two exponents
    [GetBounds] uses; it serves to run examples only. *)
Definition samplePow (x y : float) : float :=
  if eqb y 2 then mul x x else mul (mul x x) x.

(** The straight line from (0,0) to (3,3) as a curve. *)
Definition sampleCurve : draw.CubicBezierCurve :=
  draw.mkCurve (draw.mkPoint 0 0) (draw.mkPoint 1 1)
               (draw.mkPoint 2 2) (draw.mkPoint 3 3).

Definition otherCurve : draw.CubicBezierCurve :=
  draw.mkCurve (draw.mkPoint 5 5) (draw.mkPoint 6 6)
               (draw.mkPoint 7 7) (draw.mkPoint 8 8).

End DrawSamples.

(** Growth by doubling, the runtime's choice for small slices. *)
Definition doubling (oldcap : nat) : nat := if oldcap is O then 1 else 2 * oldcap.

(** A path of three curves built from the empty path, and the heap it
    lives on: its slice has length 3 and capacity 4. *)
Definition pathOf3 : draw.CubicBezierPath * gmap nat (list draw.CubicBezierCurve) :=
  let '(p1, h1) := draw.AppendCurve doubling ∅ draw.NewCubicBezierPath sampleCurve in
  let '(p2, h2) := draw.AppendCurve doubling h1 p1 otherCurve in
  draw.AppendCurve doubling h2 p2 sampleCurve.

(** A parser on [abcd] after one read of one byte: [bcd] is read ahead. *)
Definition parser_abcd_read1 : PdfParser := snd (readAll [1] parser_abcd).

(** A parser on [abcd] at its end. *)
Definition parser_abcd_end : PdfParser :=
  mkParser (mkReadSeeker bytes_abcd 4 4) NewReader.

(* ===================================================================== *)
(** ** Properties of encoder selection *)
(* ===================================================================== *)

Section StreamFilterProperties.

Context {CodecParams : Type} `{FilterNames} `{Codecs CodecParams}.

Lemma eqb_not_elem (method name : string) (names : list string) :
  method ∉ name :: names -> String.eqb method name = false /\ method ∉ names.
Proof.
  intros Hnot. split.
  - apply String.eqb_neq. intros ->. apply Hnot. left.
  - intros Hin. apply Hnot. by right.
Qed.

(** A name outside the supported ones falls through the whole chain. *)
Lemma encoderForMethod_unsupported (method : string) (streamObj : PdfObjectStream) :
  method ∉ supported_names ->
  encoderForMethod method streamObj = Panic (unsupported_method method).
Proof.
  unfold supported_names, encoderForMethod. intros Hnot.
  repeat (apply eqb_not_elem in Hnot as [-> Hnot]).
  reflexivity.
Qed.

(** The outcome of the chain depends on the stream only through the four
    constructors that read it. *)
Lemma encoderForMethod_ext (method : string) (s s' : PdfObjectStream) :
  newFlateEncoderFromStream s = newFlateEncoderFromStream s' ->
  newLZWEncoderFromStream s = newLZWEncoderFromStream s' ->
  newDCTEncoderFromStream s = newDCTEncoderFromStream s' ->
  newRunLengthEncoderFromStream s = newRunLengthEncoderFromStream s' ->
  encoderForMethod method s = encoderForMethod method s'.
Proof.
  unfold encoderForMethod. intros -> -> -> ->. reflexivity.
Qed.

Lemma NewEncoderFromStream_name (streamObj : PdfObjectStream) (method : string) :
  Get "Filter" streamObj = Some (PdfObjectName method) ->
  NewEncoderFromStream streamObj = encoderForMethod method streamObj.
Proof. unfold NewEncoderFromStream. intros ->. reflexivity. Qed.

Lemma NewEncoderFromStream_single (streamObj : PdfObjectStream) (member : PdfObject) :
  Get "Filter" streamObj = Some (PdfObjectArray [member]) ->
  NewEncoderFromStream streamObj =
    match member with
    | PdfObjectName method => encoderForMethod method streamObj
    | _ => Err "Filter array member not a Name object"
    end.
Proof. unfold NewEncoderFromStream. intros ->. reflexivity. Qed.

(** With constructors that do not look at the [Filter] entry, the array of
    one name and the bare name select the very same encoder. *)
Lemma single_name_array_same_as_name (s s' : PdfObjectStream) (method : string) :
  Get "Filter" s = Some (PdfObjectArray [PdfObjectName method]) ->
  Get "Filter" s' = Some (PdfObjectName method) ->
  newFlateEncoderFromStream s = newFlateEncoderFromStream s' ->
  newLZWEncoderFromStream s = newLZWEncoderFromStream s' ->
  newDCTEncoderFromStream s = newDCTEncoderFromStream s' ->
  newRunLengthEncoderFromStream s = newRunLengthEncoderFromStream s' ->
  NewEncoderFromStream s = NewEncoderFromStream s'.
Proof.
  intros Hs Hs' ? ? ? ?.
  rewrite (NewEncoderFromStream_single _ _ Hs), (NewEncoderFromStream_name _ _ Hs').
  by apply encoderForMethod_ext.
Qed.


End StreamFilterProperties.

(* ===================================================================== *)
(** ** Properties of [EncodeStream] *)
(* ===================================================================== *)

Section EncodeStreamProperties.

Context {CodecParams : Type} `{FilterNames} `{Codecs CodecParams}.

(** The encoder [EncodeStream] hands to [EncodeBytes]. *)
Lemma EncodeStream_selection_failed (streamObj : PdfObjectStream) :
  succeeded (NewEncoderFromStream streamObj) = false ->
  EncodeStream streamObj =
    (outcome_unit (NewEncoderFromStream streamObj), streamObj).
Proof.
  unfold EncodeStream. destruct (NewEncoderFromStream streamObj); [discriminate|..];
    reflexivity.
Qed.

Lemma EncodeStream_LZW (streamObj : PdfObjectStream) (lzwenc : LZWEncoder CodecParams) :
  NewEncoderFromStream streamObj = Ok (LZWEncoderOf lzwenc) ->
  EncodeStream streamObj =
    let marked := Set_ "EarlyChange" (MakeInteger 0) streamObj in
    match EncodeBytes (LZWEncoderOf (mkLZW (LZWParams lzwenc) 0)) (Stream streamObj) with
    | Ok encoded =>
        (Ok tt,
         Set_ "Length" (MakeInteger (Z.of_nat (length encoded)))
           (mkStream (StreamDictionary marked) encoded))
    | Err msg => (Err msg, marked)
    | Panic msg => (Panic msg, marked)
    end.
Proof.
  unfold EncodeStream. intros ->. simpl.
  destruct (EncodeBytes _ _); reflexivity.
Qed.

Lemma EncodeStream_other (streamObj : PdfObjectStream) (encoder : StreamEncoder CodecParams) :
  NewEncoderFromStream streamObj = Ok encoder ->
  (forall lzwenc, encoder <> LZWEncoderOf lzwenc) ->
  EncodeStream streamObj =
    match EncodeBytes encoder (Stream streamObj) with
    | Ok encoded =>
        (Ok tt,
         Set_ "Length" (MakeInteger (Z.of_nat (length encoded)))
           (mkStream (StreamDictionary streamObj) encoded))
    | Err msg => (Err msg, streamObj)
    | Panic msg => (Panic msg, streamObj)
    end.
Proof.
  unfold EncodeStream. intros -> Hno.
  destruct encoder; try reflexivity. by destruct (Hno lzwenc).
Qed.

(** The type assertion to the LZW encoder either holds or not. *)
Lemma lzw_or_other (encoder : StreamEncoder CodecParams) :
  (exists lzwenc, encoder = LZWEncoderOf lzwenc) \/
  (forall lzwenc, encoder <> LZWEncoderOf lzwenc).
Proof. destruct encoder; eauto; right; discriminate. Qed.

Lemma stream_eta (streamObj : PdfObjectStream) :
  mkStream (StreamDictionary streamObj) (Stream streamObj) = streamObj.
Proof. by destruct streamObj. Qed.

(** C4, as the code has it. When [EncodeStream] fails, by a returned error
    or a panic, the payload and every dictionary entry other than
    [EarlyChange], [Length] among them, are as before the call; the stream
    object as a whole is unchanged unless the LZW encoder had been selected,
    in which case its [EarlyChange] entry has been set to the integer 0. *)
Theorem EncodeStream_failure_keeps_payload_and_length (streamObj : PdfObjectStream) :
  succeeded (fst (EncodeStream streamObj)) = false ->
  let after := snd (EncodeStream streamObj) in
  Stream after = Stream streamObj /\
  Get "Length" after = Get "Length" streamObj /\
  (forall key : string, key <> "EarlyChange" -> Get key after = Get key streamObj) /\
  ((forall lzwenc, NewEncoderFromStream streamObj <> Ok (LZWEncoderOf lzwenc)) ->
   after = streamObj) /\
  (forall lzwenc, NewEncoderFromStream streamObj = Ok (LZWEncoderOf lzwenc) ->
   after = Set_ "EarlyChange" (MakeInteger 0) streamObj).
Proof.
  intros Hfail after. subst after.
  destruct (NewEncoderFromStream streamObj) as [encoder| |] eqn:Hsel.
  - destruct (lzw_or_other encoder) as [[lzwenc ->]|Hno].
    + rewrite (EncodeStream_LZW _ _ Hsel) in *. cbv zeta in *.
      destruct (EncodeBytes _ _); [discriminate|..]; simpl;
        split_and!; try done; unfold Get; simpl; intros;
        try (by rewrite lookup_insert_ne);
        match goal with Hno : forall l, _ <> _ |- _ => by destruct (Hno lzwenc) end.
    + rewrite (EncodeStream_other _ _ Hsel Hno) in *.
      destruct (EncodeBytes _ _); [discriminate|..]; simpl;
        split_and!; try done; intros l [= ->]; by destruct (Hno l).
  - rewrite EncodeStream_selection_failed by (by rewrite Hsel). simpl.
    split_and!; done.
  - rewrite EncodeStream_selection_failed by (by rewrite Hsel). simpl.
    split_and!; done.
Qed.

(** A call of [EncodeStream] that succeeds has selected an encoder and got
    bytes back from its encode operation; these bytes are the stored payload
    and their count is the [Length] entry. *)
Lemma EncodeStream_success_inv (streamObj after : PdfObjectStream) :
  EncodeStream streamObj = (Ok tt, after) ->
  exists (encoder : StreamEncoder CodecParams) (encoded : list byte),
    NewEncoderFromStream streamObj = Ok encoder /\
    EncodeBytes
      match encoder with
      | LZWEncoderOf lzwenc => LZWEncoderOf (mkLZW (LZWParams lzwenc) 0)
      | _ => encoder
      end (Stream streamObj) = Ok encoded /\
    Stream after = encoded /\
    Get "Length" after = Some (PdfObjectInteger (Z.of_nat (length (Stream after)))).
Proof.
  intros Hrun.
  destruct (NewEncoderFromStream streamObj) as [encoder| |] eqn:Hsel;
    [|rewrite EncodeStream_selection_failed in Hrun by (by rewrite Hsel);
      rewrite Hsel in Hrun; discriminate..].
  exists encoder.
  destruct (lzw_or_other encoder) as [[lzwenc ->]|Hno].
  - rewrite (EncodeStream_LZW _ _ Hsel) in Hrun. cbv zeta in Hrun.
    destruct (EncodeBytes _ _) as [encoded| |] eqn:Henc; [|discriminate..].
    injection Hrun as <-. exists encoded. split_and!; try done.
    unfold Get; simpl. by rewrite lookup_insert_eq.
  - rewrite (EncodeStream_other _ _ Hsel Hno) in Hrun.
    destruct (EncodeBytes encoder _) as [encoded| |] eqn:Henc; [|discriminate..].
    injection Hrun as <-. exists encoded. split_and!; try done.
    + destruct encoder; try done. by destruct (Hno lzwenc).
    + unfold Get; simpl. by rewrite lookup_insert_eq.
Qed.

(** C5. [EncodeStream] succeeds exactly on the streams for which an encoder
    is selected and its encode operation returns bytes.  On every such
    stream the call returns without error, the stored payload is replaced by
    the bytes the encoder returned for the old payload, and the [Length]
    entry is set to the literal integer that counts the bytes of the payload
    now stored; no other call of [EncodeStream] succeeds. *)
Theorem EncodeStream_success_payload_and_length
    (streamObj : PdfObjectStream) (encoder : StreamEncoder CodecParams)
    (encoded : list byte) :
  NewEncoderFromStream streamObj = Ok encoder ->
  EncodeBytes
    match encoder with
    | LZWEncoderOf lzwenc => LZWEncoderOf (mkLZW (LZWParams lzwenc) 0)
    | _ => encoder
    end (Stream streamObj) = Ok encoded ->
  exists after : PdfObjectStream,
    EncodeStream streamObj = (Ok tt, after) /\
    Stream after = encoded /\
    Get "Length" after = Some (PdfObjectInteger (Z.of_nat (length (Stream after)))) /\
    (forall other : PdfObjectStream,
       succeeded (fst (EncodeStream other)) = true ->
       exists (encoder' : StreamEncoder CodecParams) (encoded' : list byte),
         NewEncoderFromStream other = Ok encoder' /\
         EncodeBytes
           match encoder' with
           | LZWEncoderOf lzwenc => LZWEncoderOf (mkLZW (LZWParams lzwenc) 0)
           | _ => encoder'
           end (Stream other) = Ok encoded' /\
         Stream (snd (EncodeStream other)) = encoded' /\
         Get "Length" (snd (EncodeStream other))
           = Some (PdfObjectInteger (Z.of_nat (length encoded')))).
Proof.
  intros Hsel Henc.
  assert (Hconv : forall other : PdfObjectStream,
    succeeded (fst (EncodeStream other)) = true ->
    exists (encoder' : StreamEncoder CodecParams) (encoded' : list byte),
      NewEncoderFromStream other = Ok encoder' /\
      EncodeBytes
        match encoder' with
        | LZWEncoderOf lzwenc => LZWEncoderOf (mkLZW (LZWParams lzwenc) 0)
        | _ => encoder'
        end (Stream other) = Ok encoded' /\
      Stream (snd (EncodeStream other)) = encoded' /\
      Get "Length" (snd (EncodeStream other))
        = Some (PdfObjectInteger (Z.of_nat (length encoded')))).
  { intros other Hok.
    destruct (EncodeStream other) as [[[]| |] after'] eqn:Hrun; try discriminate.
    destruct (EncodeStream_success_inv _ _ Hrun) as (e & b & H1 & H2 & H3 & H4).
    exists e, b. simpl. rewrite H3 in H4. by subst b. }
  destruct (lzw_or_other encoder) as [[lzwenc ->]|Hno].
  - rewrite (EncodeStream_LZW _ _ Hsel). cbv zeta. rewrite Henc.
    eexists. split; [reflexivity|]. split_and!; try done.
    unfold Get; simpl. by rewrite lookup_insert_eq.
  - assert (Hsame : match encoder with
                    | LZWEncoderOf lzwenc => LZWEncoderOf (mkLZW (LZWParams lzwenc) 0)
                    | _ => encoder
                    end = encoder)
      by (destruct encoder; try done; by destruct (Hno lzwenc)).
    rewrite Hsame in Henc.
    rewrite (EncodeStream_other _ _ Hsel Hno), Henc.
    eexists. split; [reflexivity|]. split_and!; try done.
    unfold Get; simpl. by rewrite lookup_insert_eq.
Qed.

(** C6. When the selected encoder is the LZW encoder, [EncodeStream] encodes
    with the early-change parameter set to 0, and leaves the integer 0 in
    the [EarlyChange] entry of the dictionary, whatever the entry and the
    parameter were before. *)
Theorem EncodeStream_LZW_forces_EarlyChange
    (streamObj : PdfObjectStream) (lzwenc : LZWEncoder CodecParams) :
  NewEncoderFromStream streamObj = Ok (LZWEncoderOf lzwenc) ->
  fst (EncodeStream streamObj) =
    outcome_unit
      (EncodeBytes (LZWEncoderOf (mkLZW (LZWParams lzwenc) 0)) (Stream streamObj)) /\
  Get "EarlyChange" (snd (EncodeStream streamObj)) = Some (PdfObjectInteger 0).
Proof.
  intros Hsel. rewrite (EncodeStream_LZW _ _ Hsel). cbv zeta.
  destruct (EncodeBytes _ _); simpl; split; try done; unfold Get; simpl.
  - rewrite lookup_insert_ne by done. by rewrite lookup_insert_eq.
  - by rewrite lookup_insert_eq.
  - by rewrite lookup_insert_eq.
Qed.

End EncodeStreamProperties.

(** A failing LZW encode: the hypothesis of the failure property holds and
    its conclusion is read off at this stream. *)
Lemma EncodeStream_failure_witness :
  let run := @EncodeStream unit pdfFilterNames rejectingCodecs lzwStreamNoEarlyChange in
  succeeded (fst run) = false /\
  Stream (snd run) = Stream lzwStreamNoEarlyChange /\
  Get "Length" (snd run) = Get "Length" lzwStreamNoEarlyChange.
Proof.
  split; [reflexivity|].
  pose proof (@EncodeStream_failure_keeps_payload_and_length unit pdfFilterNames
                rejectingCodecs lzwStreamNoEarlyChange eq_refl) as (Hp & Hl & _).
  exact (conj Hp Hl).
Defined.

(** C4 as stated fails: the LZW encoder is selected, its encode operation
    reports a failure, and the dictionary has gained an [EarlyChange] entry
    by then. *)
Lemma EncodeStream_failure_modifies_stream :
  let run := @EncodeStream unit pdfFilterNames rejectingCodecs lzwStreamNoEarlyChange in
  fst run = Err "encode failed" /\
  Get "EarlyChange" lzwStreamNoEarlyChange = None /\
  Get "EarlyChange" (snd run) = Some (PdfObjectInteger 0) /\
  snd run <> lzwStreamNoEarlyChange.
Proof.
  split_and!; try reflexivity.
  intros Heq. apply (f_equal (Get "EarlyChange")) in Heq. discriminate Heq.
Qed.

(** A Flate stream of four bytes under an encoder that returns eight: the
    call succeeds, the payload and the [Length] entry are new. *)
Lemma EncodeStream_success_witness :
  @NewEncoderFromStream unit pdfFilterNames doublingCodecs flateStream
    = Ok (FlateEncoder tt) /\
  @EncodeBytes unit doublingCodecs (FlateEncoder tt) (Stream flateStream)
    = Ok (bytes_abcd ++ bytes_abcd) /\
  exists after : PdfObjectStream,
    @EncodeStream unit pdfFilterNames doublingCodecs flateStream = (Ok tt, after) /\
    Stream after = bytes_abcd ++ bytes_abcd /\
    Get "Length" after = Some (PdfObjectInteger (Z.of_nat (length (Stream after)))) /\
    Get "Length" after = Some (PdfObjectInteger 8) /\
    Get "Length" flateStream = Some (PdfObjectInteger 4) /\
    Stream after <> Stream flateStream.
Proof.
  assert (Hsel : @NewEncoderFromStream unit pdfFilterNames doublingCodecs flateStream
                 = Ok (FlateEncoder tt)) by reflexivity.
  assert (Henc : @EncodeBytes unit doublingCodecs (FlateEncoder tt) (Stream flateStream)
                 = Ok (bytes_abcd ++ bytes_abcd)) by reflexivity.
  split; [exact Hsel|]. split; [exact Henc|].
  destruct (@EncodeStream_success_payload_and_length unit pdfFilterNames doublingCodecs
              flateStream (FlateEncoder tt) (bytes_abcd ++ bytes_abcd) Hsel Henc)
    as (after & Hrun & Hpay & Hlen & _).
  exists after. split; [exact Hrun|]. split; [exact Hpay|]. split; [exact Hlen|].
  split; [|split; [reflexivity|]].
  - rewrite Hlen, Hpay. reflexivity.
  - rewrite Hpay. discriminate.
Defined.

Lemma EncodeStream_LZW_witness :
  @NewEncoderFromStream unit pdfFilterNames identityCodecs lzwStream
    = Ok (LZWEncoderOf (mkLZW tt 1)) /\
  Get "EarlyChange" lzwStream = Some (PdfObjectInteger 1) /\
  Get "EarlyChange" (snd (@EncodeStream unit pdfFilterNames identityCodecs lzwStream))
    = Some (PdfObjectInteger 0).
Proof.
  split_and!; [reflexivity..|].
  exact (proj2 (@EncodeStream_LZW_forces_EarlyChange unit pdfFilterNames identityCodecs
                  lzwStream (mkLZW tt 1) eq_refl)).
Defined.

(** C1, what the code does. For a filter name outside the supported ones,
    given as a bare Name or as the only member of an array,
    [NewEncoderFromStream] panics with the error it has built and never
    reaches the [return] that would hand the error to the caller; so does
    [DecodeStream], and [EncodeStream], which leaves the stream untouched.
    This holds whatever the codecs are. *)
Theorem NewEncoderFromStream_unsupported_filter_panics
    (CodecParams : Type) (codecs : Codecs CodecParams) :
  let select := @NewEncoderFromStream CodecParams pdfFilterNames codecs in
  select unknownFilterStream = Panic "Unsupported encoding method (Foo)" /\
  select unknownFilterArrayStream = Panic "Unsupported encoding method (Foo)" /\
  returned_error (select unknownFilterStream) = false /\
  returned_error (select unknownFilterArrayStream) = false /\
  @DecodeStream CodecParams pdfFilterNames codecs unknownFilterStream
    = Panic "Unsupported encoding method (Foo)" /\
  @EncodeStream CodecParams pdfFilterNames codecs unknownFilterStream
    = (Panic "Unsupported encoding method (Foo)", unknownFilterStream).
Proof. split_and!; reflexivity. Qed.

(* ===================================================================== *)
(** ** Properties of the positional reader *)
(* ===================================================================== *)

Lemma Seek_current (rs0 : ReadSeeker) :
  Seek 0 SEEK_CUR rs0 = (Ok (Z.of_nat (rs_pos rs0)), rs0).
Proof.
  unfold Seek. rewrite Z.add_0_r.
  destruct (Z.ltb_spec (Z.of_nat (rs_pos rs0)) 0); [lia|].
  rewrite Nat2Z.id. by destruct rs0.
Qed.

Lemma Seek_start (offset : Z) (rs0 : ReadSeeker) :
  (0 <= offset)%Z ->
  Seek offset SEEK_SET rs0
    = (Ok offset, mkReadSeeker (rs_data rs0) (Z.to_nat offset) (rs_chunk rs0)).
Proof.
  intros Hoff. unfold Seek. by destruct (Z.ltb_spec offset 0); [lia|].
Qed.

Lemma Seek_start_negative (offset : Z) (rs0 : ReadSeeker) :
  (offset < 0)%Z -> Seek offset SEEK_SET rs0 = (Err "negative position", rs0).
Proof.
  intros Hoff. unfold Seek. by destruct (Z.ltb_spec offset 0); [|lia].
Qed.

(** The logical position is the source position less the bytes read ahead. *)
Lemma GetFileOffset_eq (this : PdfParser) :
  GetFileOffset this
    = (Z.of_nat (rs_pos (rs this)) - Z.of_nat (Buffered (reader this)))%Z.
Proof. unfold GetFileOffset. by rewrite Seek_current. Qed.

Lemma take_drop_length {A} (k : nat) (l : list A) :
  take k l ++ drop (length (take k l)) l = l.
Proof.
  rewrite length_take. destruct (Nat.le_gt_cases k (length l)).
  - rewrite Nat.min_l by done. apply take_drop.
  - rewrite Nat.min_r by lia. rewrite take_ge by lia. rewrite drop_all.
    apply app_nil_r.
Qed.

(** One read of the source: the bytes handed out are the next ones of the
    data, the position has moved past them, and an error comes without
    bytes and only at the end of the data. *)
Lemma sourceRead_spec (n : nat) (rs0 rs' : ReadSeeker) (got : list byte)
    (err : option string) :
  sourceRead n rs0 = (got, err, rs') ->
  rs_data rs' = rs_data rs0 /\ rs_chunk rs' = rs_chunk rs0 /\
  rs_pos rs' = rs_pos rs0 + length got /\
  length got <= n /\
  drop (rs_pos rs0) (rs_data rs0) = got ++ drop (rs_pos rs') (rs_data rs') /\
  (err <> None -> got = [] /\ drop (rs_pos rs0) (rs_data rs0) = []) /\
  (err = None -> 0 < n -> 0 < rs_chunk rs0 -> 0 < length got).
Proof.
  unfold sourceRead.
  destruct (Nat.leb_spec (length (rs_data rs0)) (rs_pos rs0)) as [Hend|Hmore];
    intros [= <- <- <-]; simpl.
  - split_and!; try done; try lia.
    intros _. split; [done|]. by rewrite drop_ge.
  - set (k := n `min` rs_chunk rs0).
    set (rest := drop (rs_pos rs0) (rs_data rs0)).
    assert (Hrest : length rest = length (rs_data rs0) - rs_pos rs0)
      by (unfold rest; by rewrite length_drop).
    split_and!; try done.
    + rewrite length_take. lia.
    + rewrite <- drop_drop. fold rest. by rewrite take_drop_length.
    + intros _ Hn Hchunk. rewrite length_take. lia.
Qed.

(** One read through the buffered reader: the bytes handed out are the next
    upcoming ones, the logical position has moved by their count, and an
    error comes without bytes and only when nothing is left. *)
Lemma readerRead_spec (n : nat) (this this' : PdfParser) (got : list byte)
    (err : option string) :
  readerRead n this = (got, err, this') ->
  rs_data (rs this') = rs_data (rs this) /\
  rs_chunk (rs this') = rs_chunk (rs this) /\
  br_size (reader this') = br_size (reader this) /\
  length got <= n /\
  upcoming this = got ++ upcoming this' /\
  GetFileOffset this' = (GetFileOffset this + Z.of_nat (length got))%Z /\
  (err <> None -> got = [] /\ upcoming this' = []) /\
  (err = None -> 0 < n -> 0 < rs_chunk (rs this) -> 0 < length got).
Proof.
  rewrite !GetFileOffset_eq. unfold readerRead, upcoming, Buffered.
  destruct this as [rs0 [unread size]]; simpl.
  destruct n as [|n].
  { intros [= <- <- <-]; simpl. split_and!; try done; lia. }
  destruct unread as [|b unread].
  - destruct (Nat.leb_spec size (S n)) as [Hlarge|Hsmall].
    + destruct (sourceRead (S n) rs0) as [[got0 err0] rs1] eqn:Hsrc.
      apply sourceRead_spec in Hsrc as (Hd & Hc & Hp & Hlen & Hup & Herr & Hprog).
      intros [= <- <- <-]; simpl.
      split_and!; try done; try lia.
      intros Hne. destruct (Herr Hne) as [-> Hnil]. split; [done|].
      by rewrite Hnil in Hup.
    + destruct (sourceRead size rs0) as [[got0 err0] rs1] eqn:Hsrc.
      apply sourceRead_spec in Hsrc as (Hd & Hc & Hp & Hlen & Hup & Herr & Hprog).
      destruct got0 as [|b got0].
      * simpl in Hp, Hup, Hprog. intros [= <- <- <-]; simpl.
        split_and!; try done; try lia.
        -- intros Hne. destruct (Herr Hne) as [_ Hnil]. split; [done|].
           by rewrite Hnil in Hup.
        -- intros Hnone _ Hchunk. specialize (Hprog Hnone). lia.
      * intros [= <- <- <-]. cbn [rs reader br_unread br_size].
        split_and!; try done.
        -- simpl. rewrite length_take. lia.
        -- simpl. rewrite Hup. simpl. f_equal. by rewrite app_assoc, take_drop.
        -- simpl. simpl in Hp. rewrite Hp, length_take, length_drop. lia.
        -- intros _ _ _. simpl. lia.
  - intros [= <- <- <-]. cbn [rs reader br_unread br_size].
    split_and!; try done.
    + simpl. rewrite length_take. lia.
    + simpl. f_equal. by rewrite app_assoc, take_drop.
    + simpl. rewrite length_take, length_drop. lia.
    + intros _ _ _. simpl. lia.
Qed.

(** [SetFileOffset] leaves a consistent reader, whatever the offset. *)
Lemma SetFileOffset_consistent (offset : Z) (this : PdfParser) :
  reader_consistent (SetFileOffset offset this).
Proof.
  unfold reader_consistent. rewrite GetFileOffset_eq.
  unfold upcoming, SetFileOffset.
  cbn [rs reader NewReader Buffered br_unread length app].
  rewrite Z.sub_0_r, Nat2Z.id. split; [lia|].
  unfold Seek. by destruct (offset <? 0)%Z.
Qed.

(** Reading keeps the reader consistent. *)
Lemma readerRead_consistent (n : nat) (this this' : PdfParser) (got : list byte)
    (err : option string) :
  readerRead n this = (got, err, this') ->
  reader_consistent this -> reader_consistent this'.
Proof.
  intros Hread [Hpos Hup].
  apply readerRead_spec in Hread as (Hd & _ & _ & _ & Hup' & Hoff & _).
  unfold reader_consistent. rewrite Hoff, Hd. split; [lia|].
  rewrite Z2Nat.inj_add, Nat2Z.id by lia.
  rewrite <- drop_drop, <- Hup, Hup'. by rewrite drop_app_length.
Qed.


(** [SetFileOffset] with a target before the start: the seek is refused and
    its error dropped, so the source stays where it was. *)
Lemma SetFileOffset_negative (offset : Z) (this : PdfParser) :
  (offset < 0)%Z ->
  GetFileOffset (SetFileOffset offset this) = Z.of_nat (rs_pos (rs this)).
Proof.
  intros Hneg. rewrite GetFileOffset_eq. unfold SetFileOffset.
  rewrite Seek_start_negative by done.
  cbn [snd rs reader NewReader Buffered br_unread length]. lia.
Qed.




Lemma length_write_at (p got : list byte) (start : nat) :
  start + length got <= length p -> length (write_at p start got) = length p.
Proof.
  intros Hroom. unfold write_at.
  rewrite !length_app, length_take, length_drop. lia.
Qed.

Lemma take_write_at (p got : list byte) (start : nat) :
  start + length got <= length p ->
  take (start + length got) (write_at p start got) = take start p ++ got.
Proof.
  intros Hroom. unfold write_at.
  rewrite app_assoc. apply take_app_length'.
  rewrite length_app, length_take. lia.
Qed.

(** The loop of [ReadAtLeast], entered with room for the bytes still asked
    for, leaves within [remaining] rounds.  The bytes it has put behind
    [start] are the upcoming ones in order; it ends without error once at
    least [remaining] bytes are there, and with the error when the source
    ran dry before. *)
Lemma ReadAtLeast_loop_spec (fuel : nat) :
  forall (p : list byte) (remaining : Z) (start : nat) (this : PdfParser),
  0 < rs_chunk (rs this) ->
  start <= length p ->
  (remaining + Z.of_nat start <= Z.of_nat (length p))%Z ->
  Z.to_nat remaining <= fuel ->
  exists (count : nat) (err : option string) (p' : list byte)
         (this' : PdfParser) (delivered : list byte),
    ReadAtLeast_loop fuel p remaining start this = Some (count, err, p', this') /\
    length p' = length p /\
    count = start + length delivered /\
    count <= length p /\
    take count p' = take start p ++ delivered /\
    upcoming this = delivered ++ upcoming this' /\
    GetFileOffset this' = (GetFileOffset this + Z.of_nat (length delivered))%Z /\
    match err with
    | None => (remaining <= Z.of_nat (length delivered))%Z
    | Some msg =>
        msg = "Failed reading" /\
        (Z.of_nat (length delivered) < remaining)%Z /\
        upcoming this' = []
    end.
Proof.
  induction fuel as [|fuel IH]; intros p remaining start this Hchunk Hstart Hroom Hfuel.
  - exists start, None, p, this, []. simpl.
    destruct (Z.leb_spec remaining 0); [|lia].
    rewrite app_nil_r, Nat.add_0_r. split_and!; try done; lia.
  - cbn [ReadAtLeast_loop].
    destruct (Z.leb_spec remaining 0) as [Hdone|Hmore].
    { exists start, None, p, this, []. simpl.
      rewrite app_nil_r, Nat.add_0_r. split_and!; try done; lia. }
    destruct (readerRead (length p - start) this) as [[got err] this1] eqn:Hread.
    apply readerRead_spec in Hread
      as (_ & Hc & _ & Hlen & Hup & Hoff & Herr & Hprog).
    destruct err as [e|].
    + destruct Herr as [-> Hdry]; [done|].
      exists start, (Some "Failed reading"), (write_at p start []), this1, [].
      simpl in *. rewrite app_nil_r, Nat.add_0_r.
      split_and!; try done; try lia.
      * apply length_write_at. simpl. lia.
      * unfold write_at. simpl. rewrite Nat.add_0_r. by rewrite take_drop.
    + specialize (Hprog eq_refl).
      assert (Hgot : 0 < length got) by (apply Hprog; lia).
      destruct (IH (write_at p start got) (remaining - Z.of_nat (length got))%Z
                  (start + length got) this1)
        as (count & err & p' & this' & delivered & Hrun & Hlp & Hcount & Hle
            & Htake & Hup' & Hoff' & Hend).
      * by rewrite Hc.
      * rewrite length_write_at; lia.
      * rewrite length_write_at; lia.
      * lia.
      * rewrite length_write_at in * by lia.
        rewrite take_write_at in Htake by lia.
        exists count, err, p', this', (got ++ delivered).
        rewrite length_app. split_and!; try done; try lia.
        -- by rewrite Htake, app_assoc.
        -- by rewrite Hup, Hup', app_assoc.
        -- destruct err as [msg|]; [|lia].
           destruct Hend as (-> & Hshort & Hdry). split_and!; try done; lia.
Qed.

(** C9, as the code has it. For a slice [p] with room for [n] bytes and a
    source that hands out at least one byte per read, [ReadAtLeast] leaves
    its loop within [n] rounds.  It gathers the upcoming bytes at the front
    of [p], in order, over as many short reads as it takes, and moves the
    logical position by the count it returns.  Without error that count is
    at least [n], at most the length of [p], and exactly [n] when [p] has
    length [n]; with fewer than [n] bytes there is no success: the error is
    "Failed reading", and it comes only when the source had fewer than [n]
    bytes to give. *)
Theorem ReadAtLeast_reads_at_least_n
    (this : PdfParser) (p : list byte) (n : Z) (fuel : nat) :
  0 < rs_chunk (rs this) ->
  (n <= Z.of_nat (length p))%Z ->
  Z.to_nat n <= fuel ->
  exists (count : nat) (err : option string) (p' : list byte) (this' : PdfParser),
    ReadAtLeast fuel p n this = Some (count, err, p', this') /\
    length p' = length p /\
    count <= length p /\
    upcoming this = take count p' ++ upcoming this' /\
    GetFileOffset this' = (GetFileOffset this + Z.of_nat count)%Z /\
    match err with
    | None =>
        (n <= Z.of_nat count)%Z /\
        (Z.of_nat (length p) = n -> Z.of_nat count = n)
    | Some msg =>
        msg = "Failed reading" /\
        (Z.of_nat count < n)%Z /\
        (Z.of_nat (length (upcoming this)) < n)%Z
    end.
Proof.
  intros Hchunk Hroom Hfuel.
  destruct (ReadAtLeast_loop_spec fuel p n 0 this)
    as (count & err & p' & this' & delivered & Hrun & Hlp & Hcount & Hle
        & Htake & Hup & Hoff & Hend); try done; try lia.
  simpl in Hcount, Htake. subst count.
  exists (length delivered), err, p', this'.
  rewrite Htake. split_and!; try done.
  destruct err as [msg|].
  - destruct Hend as (-> & Hshort & Hdry). split_and!; try done.
    by rewrite Hup, Hdry, app_nil_r.
  - split; [done|lia].
Qed.

Lemma ReadAtLeast_witness :
  0 < rs_chunk (rs parser_abcd) /\
  (3 <= Z.of_nat (length [x00; x00; x00]%byte))%Z /\
  Z.to_nat 3 <= 3 /\
  exists (count : nat) (err : option string) (p' : list byte) (this' : PdfParser),
    ReadAtLeast 3 [x00; x00; x00]%byte 3 parser_abcd = Some (count, err, p', this') /\
    length p' = length [x00; x00; x00]%byte /\
    count <= length [x00; x00; x00]%byte /\
    upcoming parser_abcd = take count p' ++ upcoming this' /\
    GetFileOffset this' = (GetFileOffset parser_abcd + Z.of_nat count)%Z /\
    match err with
    | None =>
        (3 <= Z.of_nat count)%Z /\
        (Z.of_nat (length [x00; x00; x00]%byte) = 3%Z -> Z.of_nat count = 3%Z)
    | Some msg =>
        msg = "Failed reading" /\
        (Z.of_nat count < 3)%Z /\
        (Z.of_nat (length (upcoming parser_abcd)) < 3)%Z
    end.
Proof.
  assert (Hchunk : 0 < rs_chunk (rs parser_abcd)) by (simpl; lia).
  assert (Hroom : (3 <= Z.of_nat (length [x00; x00; x00]%byte))%Z) by (simpl; lia).
  assert (Hfuel : Z.to_nat 3 <= 3) by (simpl; lia).
  split_and!; [exact Hchunk | exact Hroom | exact Hfuel |].
  exact (ReadAtLeast_reads_at_least_n parser_abcd [x00; x00; x00]%byte 3 3
           Hchunk Hroom Hfuel).
Defined.

(** C9 as stated fails: asked for 2 bytes into a slice of 4, with 4 bytes in
    the source, [ReadAtLeast] succeeds and returns 4. *)
Lemma ReadAtLeast_returns_more_than_n :
  exists (this' : PdfParser),
    ReadAtLeast 2 [x00; x00; x00; x00]%byte 2 parser_abcd
      = Some (4, None, bytes_abcd, this') /\
    Z.of_nat 4 <> 2%Z.
Proof. eexists. split; [reflexivity|discriminate]. Qed.

(** Without room for [n] bytes the loop does not leave: once the slice is
    full every further read is of an empty slice, hands out nothing and
    reports no error, so no number of rounds is enough. *)
Lemma ReadAtLeast_full_slice_spins (fuel : nat) (p : list byte) (remaining : Z)
    (this : PdfParser) :
  (0 < remaining)%Z ->
  ReadAtLeast_loop fuel p remaining (length p) this = None.
Proof.
  intros Hmore. induction fuel as [|fuel IH]; cbn [ReadAtLeast_loop];
    destruct (Z.leb_spec remaining 0); try lia; [done|].
  rewrite Nat.sub_diag. cbn [readerRead length].
  unfold write_at. rewrite !Nat.add_0_r, drop_all, take_ge by done.
  cbn [app]. rewrite app_nil_r, Z.sub_0_r. exact IH.
Qed.

Remark ReadAtLeast_short_slice_never_returns (fuel : nat) :
  ReadAtLeast fuel [x00; x00]%byte 3 parser_abcd = None.
Proof.
  destruct fuel as [|fuel]; [reflexivity|].
  unfold ReadAtLeast. cbn [ReadAtLeast_loop].
  change (3 <=? 0)%Z with false. cbv iota.
  change (readerRead (length [x00; x00]%byte - 0) parser_abcd)
    with ([x61; x62]%byte, @None string,
          mkParser (mkReadSeeker bytes_abcd 4 4)
            (mkBufReader [x63; x64]%byte defaultBufSize)).
  cbv iota beta.
  apply (ReadAtLeast_full_slice_spins fuel [x61; x62]%byte 1). lia.
Qed.

(* ===================================================================== *)
(** ** Properties of reference resolution *)
(* ===================================================================== *)

Section ResolverProperties.

Variable xrefs : gmap Z XrefEntry.
Variable objectAt : Z -> option ParsedObject.
Variable objectInStream : Z -> Z -> option PdfObject.

Local Abbreviation parse := (parseIndirectObject xrefs objectAt objectInStream).
Local Abbreviation resolve := (ResolveWith xrefs objectInStream).

(** Resolution asks the object parser only for a reference that the index
    sends to an offset. *)
Lemma ResolveWith_returns (k : Z -> option Resolution) (value : PdfObject) :
  (forall number generation offset,
     value = PdfObjectReference number generation ->
     xrefs !! number = Some (XrefOffset offset) ->
     is_Some (k offset)) ->
  is_Some (resolve k value).
Proof.
  intros Hk. destruct value as [| | | | | |number generation| | |]; simpl; eauto.
  destruct (xrefs !! number) as [[| offset |objstm index]|] eqn:Hx; eauto.
  - destruct (Hk _ _ offset eq_refl Hx) as [[v|[]] ->]; eauto.
  - destruct (objectInStream objstm index); eauto.
Qed.

(** The guard bounds the depth of the parse: every nested parse has put a
    further object number of the index into the in-flight set, so a parse
    never nests deeper than the numbers of the index still outside the set,
    plus one. *)
Lemma parseIndirectObject_terminates (fuel : nat) :
  forall (inflight : gset Z) (offset : Z),
  size (dom xrefs ∖ inflight) < fuel ->
  is_Some (parse fuel inflight offset).
Proof.
  induction fuel as [|fuel IH]; intros inflight offset Hfuel; [lia|].
  cbn [parseIndirectObject].
  destruct (objectAt offset) as [parsed|]; [|eauto].
  destruct (obj_payload parsed) as [bytes|]; [|eauto].
  destruct (obj_value parsed) as [| | | | | | | |dict|]; eauto.
  destruct (dict !! "Length") as [len|]; [|eauto].
  destruct len as [| |m| | | |number generation| | |]; eauto.
  { destruct (_ && _); eauto. }
  destruct (decide (number ∈ inflight)) as [|Hfresh]; [eauto|].
  destruct (ResolveWith_returns
              (parse fuel ({[number]} ∪ inflight))
              (PdfObjectReference number generation)) as [r ->].
  2: { destruct r as [[| |m| | | | | | |]|]; eauto. destruct (_ && _); eauto. }
  intros ? ? off [= <- <-] Hx. apply IH.
  apply elem_of_dom_2 in Hx.
  assert (Hsub : dom xrefs ∖ ({[number]} ∪ inflight) ⊂ dom xrefs ∖ inflight).
  { split; [set_solver|]. intros Hsub.
    assert (number ∈ dom xrefs ∖ ({[number]} ∪ inflight))
      by (apply Hsub; set_solver).
    set_solver. }
  apply subset_size in Hsub. lia.
Qed.

(** Allowed a depth of one more than the index has entries, a top-level
    parse always comes back. *)
Corollary ParseIndirectObject_terminates (offset : Z) :
  is_Some (ParseIndirectObject xrefs objectAt objectInStream (S (size xrefs)) offset).
Proof.
  apply parseIndirectObject_terminates.
  rewrite difference_empty_L, size_dom. lia.
Qed.

(** C2. A stream object whose [Length] is a reference that the index sends
    back to the offset of the object being parsed, under the object's own
    number or under another one, makes the top-level parse of that object
    fail with the circular-reference error; the parse nests two deep and no
    deeper, whatever depth it is allowed. *)
Theorem ParseIndirectObject_circular_length_fails
    (fuel : nat) (offset : Z) (parsed : ParsedObject)
    (dict : gmap string PdfObject) (bytes : list byte) (number generation : Z) :
  objectAt offset = Some parsed ->
  obj_value parsed = PdfObjectDictionary dict ->
  obj_payload parsed = Some bytes ->
  dict !! "Length" = Some (PdfObjectReference number generation) ->
  xrefs !! number = Some (XrefOffset offset) ->
  2 <= fuel ->
  ParseIndirectObject xrefs objectAt objectInStream fuel offset
    = Some (Failed CircularLengthReference).
Proof.
  intros Hat Hval Hpay Hlen Hx Hfuel.
  destruct fuel as [|[|fuel]]; [lia..|].
  unfold ParseIndirectObject.
  cbn [parseIndirectObject]. rewrite Hat, Hpay, Hval, Hlen.
  rewrite decide_False by set_solver.
  cbn [ResolveWith]. rewrite Hx.
  cbn [parseIndirectObject]. rewrite Hat, Hpay, Hval, Hlen.
  rewrite decide_True by set_solver. reflexivity.
Qed.

(** C3. A reference whose object number is absent from the index resolves
    to the Null object, and that is no error; this holds for every object
    number, negative ones included, and needs no parse at all. *)
Theorem Trace_dangling_reference_is_Null (fuel : nat) (number generation : Z) :
  xrefs !! number = None ->
  Trace xrefs objectAt objectInStream fuel (PdfObjectReference number generation)
    = Some (Resolved PdfObjectNull).
Proof. intros Hx. unfold Trace, ResolveWith. by rewrite Hx. Qed.

End ResolverProperties.

(** The two regression documents: object 13 with [Length] [13 0 R], and
    object 13 with [Length] [12 0 R] where the index sends 12 to object 13. *)
Lemma ParseIndirectObject_circular_witness :
  ParseIndirectObject selfReference1_xrefs selfReference1_objectAt noObjectStreams 2 0
    = Some (Failed CircularLengthReference) /\
  ParseIndirectObject selfReference2_xrefs selfReference2_objectAt noObjectStreams 2 0
    = Some (Failed CircularLengthReference).
Proof.
  split.
  - exact (ParseIndirectObject_circular_length_fails
             selfReference1_xrefs selfReference1_objectAt noObjectStreams 2 0
             (mkParsed 13 0
                (PdfObjectDictionary {["Length" := PdfObjectReference 13 0]})
                (Some payload_xxx))
             {["Length" := PdfObjectReference 13 0]} payload_xxx 13 0
             eq_refl eq_refl eq_refl eq_refl eq_refl (le_n 2)).
  - exact (ParseIndirectObject_circular_length_fails
             selfReference2_xrefs selfReference2_objectAt noObjectStreams 2 0
             (mkParsed 13 0
                (PdfObjectDictionary {["Length" := PdfObjectReference 12 0]})
                (Some payload_xxx))
             {["Length" := PdfObjectReference 12 0]} payload_xxx 12 0
             eq_refl eq_refl eq_refl eq_refl eq_refl (le_n 2)).
Defined.

(** The regression of [TestFuzzParserTrace1]: object number -1 against an
    empty index. *)
Lemma Trace_dangling_witness :
  (∅ : gmap Z XrefEntry) !! (-1)%Z = None /\
  Trace ∅ (fun _ => None) noObjectStreams 0 (PdfObjectReference (-1) 0)
    = Some (Resolved PdfObjectNull).
Proof.
  split; [reflexivity|].
  exact (Trace_dangling_reference_is_Null ∅ (fun _ => None) noObjectStreams 0
           (-1) 0 eq_refl).
Defined.

(* ===================================================================== *)
(** ** Further properties of encoder selection and encoding *)
(* ===================================================================== *)

Section StreamFilterFurther.

Context {CodecParams : Type} `{FilterNames} `{Codecs CodecParams}.

(** X1. [EncodeStream] writes no dictionary entry other than [EarlyChange]
    and [Length]: every other entry, [Filter] among them, reads the same
    after the call as before, whether the call succeeds, fails or panics. *)
Theorem EncodeStream_frame (streamObj : PdfObjectStream) (key : string) :
  key <> "EarlyChange" -> key <> "Length" ->
  Get key (snd (EncodeStream streamObj)) = Get key streamObj.
Proof.
  intros Hec Hlen.
  destruct (NewEncoderFromStream streamObj) as [encoder| |] eqn:Hsel.
  - destruct (lzw_or_other encoder) as [[lzwenc ->]|Hno].
    + rewrite (EncodeStream_LZW _ _ Hsel). cbv zeta.
      destruct (EncodeBytes _ _); unfold Get; simpl;
        rewrite ?lookup_insert_ne by done; done.
    + rewrite (EncodeStream_other _ _ Hsel Hno).
      destruct (EncodeBytes _ _); unfold Get; simpl;
        rewrite ?lookup_insert_ne by done; done.
  - by rewrite EncodeStream_selection_failed by (by rewrite Hsel).
  - by rewrite EncodeStream_selection_failed by (by rewrite Hsel).
Qed.

(** X2. With an encoder other than the LZW one selected, [EncodeStream]
    leaves the stream alone on failure and, on success, changes the payload
    and the [Length] entry only: an [EarlyChange] entry is never written
    for another filter. *)
Theorem EncodeStream_other_filter_keeps_EarlyChange
    (streamObj : PdfObjectStream) (encoder : StreamEncoder CodecParams) :
  NewEncoderFromStream streamObj = Ok encoder ->
  (forall lzwenc, encoder <> LZWEncoderOf lzwenc) ->
  Get "EarlyChange" (snd (EncodeStream streamObj)) = Get "EarlyChange" streamObj /\
  (succeeded (fst (EncodeStream streamObj)) = false ->
   snd (EncodeStream streamObj) = streamObj) /\
  (forall encoded, EncodeBytes encoder (Stream streamObj) = Ok encoded ->
   EncodeStream streamObj =
     (Ok tt,
      mkStream
        (<["Length" := PdfObjectInteger (Z.of_nat (length encoded))]>
           (StreamDictionary streamObj))
        encoded)).
Proof.
  intros Hsel Hno. rewrite (EncodeStream_other _ _ Hsel Hno).
  destruct (EncodeBytes encoder _) as [encoded| |]; simpl; split_and!; try done.
  - unfold Get; simpl. by rewrite lookup_insert_ne.
  - by intros ? [= ->].
Qed.

Lemma as_encoder_panicked {A} (wrap : A -> StreamEncoder CodecParams) (r : Outcome A) :
  panicked (as_encoder wrap r) = panicked r.
Proof. by destruct r. Qed.

Lemma encoderForMethod_panicked (method : string) (streamObj : PdfObjectStream) :
  constructors_return ->
  (panicked (encoderForMethod method streamObj) = true <-> method ∉ supported_names).
Proof.
  intros (Hf & Hl & Hd & Hr & _). split.
  - unfold encoderForMethod, supported_names.
    repeat match goal with
           | |- context [String.eqb method ?name] =>
               destruct (String.eqb_spec method name) as [->|?];
               [rewrite ?as_encoder_panicked, ?Hf, ?Hl, ?Hd, ?Hr; discriminate|]
           end.
    intros _. rewrite !not_elem_of_cons. split_and!; try done. apply not_elem_of_nil.
  - intros Hnot. by rewrite encoderForMethod_unsupported.
Qed.

(** X3. When the per-filter constructors themselves return, the one way
    [NewEncoderFromStream] panics is the last branch of its chain: it panics
    exactly when [Filter] is a Name, or an array of one Name, that is none
    of the supported names.  Every other shape of [Filter] returns. *)
Theorem NewEncoderFromStream_panics_iff (streamObj : PdfObjectStream) :
  constructors_return ->
  (panicked (NewEncoderFromStream streamObj) = true <->
   exists method : string,
     (method ∉ supported_names) /\
     (Get "Filter" streamObj = Some (PdfObjectName method) \/
      Get "Filter" streamObj = Some (PdfObjectArray [PdfObjectName method]))).
Proof.
  intros Hret. unfold NewEncoderFromStream.
  destruct (Get "Filter" streamObj) as [filterObj|]; simpl.
  2: { split; [done|]. intros (? & _ & [|]); done. }
  destruct filterObj as [| | | | |method| |array| |]; simpl;
    try (split; [done|]; intros (? & _ & [|]); done).
  - rewrite (encoderForMethod_panicked _ _ Hret). split.
    + intros Hnot. exists method. eauto.
    + by intros (? & Hnot & [[= ->]|]).
  - destruct array as [|member [|second rest]]; simpl.
    + split; [done|]. intros (? & _ & [|]); done.
    + destruct member as [| | | | |method| | | |]; simpl;
        try (split; [done|]; intros (? & _ & [|]); done).
      rewrite (encoderForMethod_panicked _ _ Hret). split.
      * intros Hnot. exists method. eauto.
      * by intros (? & Hnot & [|[= ->]]).
    + rewrite as_encoder_panicked.
      destruct Hret as (_ & _ & _ & _ & Hm). rewrite Hm.
      split; [done|]. intros (? & _ & [|]); done.
Qed.

(** X4. With nine different filter names, each name selects its own
    encoder: the four filters with parameters go to their constructor, the
    five without are built on the spot, whatever else the stream holds. *)
Theorem NewEncoderFromStream_dispatch
    (dict : gmap string PdfObject) (payload : list byte) :
  NoDup supported_names ->
  let named name := mkStream (<["Filter" := PdfObjectName name]> dict) payload in
  let select name := NewEncoderFromStream (named name) in
  select StreamEncodingFilterNameFlate
    = as_encoder FlateEncoder
        (newFlateEncoderFromStream (named StreamEncodingFilterNameFlate)) /\
  select StreamEncodingFilterNameLZW
    = as_encoder LZWEncoderOf
        (newLZWEncoderFromStream (named StreamEncodingFilterNameLZW)) /\
  select StreamEncodingFilterNameDCT
    = as_encoder DCTEncoder
        (newDCTEncoderFromStream (named StreamEncodingFilterNameDCT)) /\
  select StreamEncodingFilterNameRunLength
    = as_encoder RunLengthEncoder
        (newRunLengthEncoderFromStream (named StreamEncodingFilterNameRunLength)) /\
  select StreamEncodingFilterNameASCIIHex = Ok ASCIIHexEncoder /\
  select StreamEncodingFilterNameASCII85 = Ok ASCII85Encoder /\
  select StreamEncodingFilterNameCCITTFax = Ok CCITTFaxEncoder /\
  select StreamEncodingFilterNameJBIG2 = Ok JBIG2Encoder /\
  select StreamEncodingFilterNameJPX = Ok JPXEncoder.
Proof.
  unfold supported_names. intros Hnd. cbv zeta beta.
  rewrite !NoDup_cons, !not_elem_of_cons in Hnd.
  unfold NewEncoderFromStream, Get; simpl. rewrite !lookup_insert_eq.
  unfold encoderForMethod. rewrite !String.eqb_refl.
  repeat match goal with
         | |- context [String.eqb ?a ?b] =>
             let Hne := fresh in
             destruct (String.eqb_spec a b) as [Hne|_];
             [exfalso; clear -Hnd Hne; naive_solver|]
         end.
  split_and!; reflexivity.
Qed.

End StreamFilterFurther.

(* ===================================================================== *)
(** ** Further properties of the positional reader *)
(* ===================================================================== *)

Lemma parser_eta (this : PdfParser) : mkParser (rs this) (reader this) = this.
Proof. by destruct this. Qed.

Lemma readAll_data (sizes : list nat) (this : PdfParser) :
  rs_data (rs (snd (readAll sizes this))) = rs_data (rs this).
Proof.
  revert this. induction sizes as [|n sizes IH]; intros this; cbn [readAll]; [done|].
  destruct (readerRead n this) as [[got err] this1] eqn:Hread.
  apply readerRead_spec in Hread as (Hd & _).
  specialize (IH this1). destruct (readAll sizes this1) as [rest this2].
  cbn [snd] in *. by rewrite IH.
Qed.

Lemma readAll_consistent (sizes : list nat) (this : PdfParser) :
  reader_consistent this -> reader_consistent (snd (readAll sizes this)).
Proof.
  revert this. induction sizes as [|n sizes IH]; intros this Hc; cbn [readAll]; [done|].
  destruct (readerRead n this) as [[got err] this1] eqn:Hread.
  apply readerRead_consistent in Hread; [|done].
  specialize (IH this1 Hread). by destruct (readAll sizes this1).
Qed.

(** The loop of [ReadAtLeast] keeps the source's data and the reader
    consistent, however it ends. *)
Lemma ReadAtLeast_loop_consistent (fuel : nat) :
  forall (p : list byte) (remaining : Z) (start : nat) (this : PdfParser)
         (count : nat) (err : option string) (p' : list byte) (this' : PdfParser),
  ReadAtLeast_loop fuel p remaining start this = Some (count, err, p', this') ->
  reader_consistent this ->
  reader_consistent this' /\ rs_data (rs this') = rs_data (rs this).
Proof.
  induction fuel as [|fuel IH]; intros p remaining start this count err p' this';
    cbn [ReadAtLeast_loop]; destruct (remaining <=? 0)%Z;
    try (by intros [= <- <- <- <-]); try done.
  destruct (readerRead (length p - start) this) as [[got e] this1] eqn:Hread.
  intros Hrun Hc.
  pose proof (readerRead_consistent _ _ _ _ _ Hread Hc) as Hc1.
  apply readerRead_spec in Hread as (Hd & _).
  destruct e as [msg|].
  - injection Hrun as <- <- <- <-. done.
  - destruct (IH _ _ _ _ _ _ _ _ Hrun Hc1) as [Hc' Hd']. split; [done|].
    by rewrite Hd'.
Qed.

(** With a slice of exactly [n] bytes, the loop of [ReadAtLeast] hands over
    the next [n] upcoming bytes when there are that many, and otherwise
    ends with the error after all that was upcoming. *)
Lemma ReadAtLeast_exact_spec (fuel n : nat) (p : list byte) (this : PdfParser) :
  0 < rs_chunk (rs this) -> length p = n -> n <= fuel ->
  exists (count : nat) (err : option string) (p' : list byte) (this' : PdfParser),
    ReadAtLeast fuel p (Z.of_nat n) this = Some (count, err, p', this') /\
    GetFileOffset this' = (GetFileOffset this + Z.of_nat count)%Z /\
    if decide (n <= length (upcoming this)) then
      count = n /\ err = None /\
      p' = take n (upcoming this) /\ upcoming this' = drop n (upcoming this)
    else
      count = length (upcoming this) /\ err = Some "Failed reading" /\
      take count p' = upcoming this /\ upcoming this' = [].
Proof.
  intros Hchunk Hlen Hfuel.
  destruct (ReadAtLeast_loop_spec fuel p (Z.of_nat n) 0 this)
    as (count & err & p' & this' & delivered & Hrun & Hlp & Hcount & Hle
        & Htake & Hup & Hoff & Hend); try done; try lia.
  simpl in Hcount, Htake. subst count.
  exists (length delivered), err, p', this'. split; [done|]. split; [done|].
  assert (Hupl : length (upcoming this) = length delivered + length (upcoming this'))
    by (by rewrite Hup, length_app).
  destruct err as [msg|].
  - destruct Hend as (-> & Hshort & Hdry). rewrite Hdry in *. simpl in Hupl.
    rewrite decide_False by lia. rewrite app_nil_r in Hup.
    split_and!; try done; [lia | congruence].
  - rewrite decide_True by lia.
    assert (Hn : length delivered = n) by lia.
    rewrite take_ge in Htake by lia. subst p'.
    split_and!; try done.
    + rewrite Hup, <- Hn. by rewrite take_app_length.
    + rewrite Hup, <- Hn. by rewrite drop_app_length.
Qed.

(** With room for fewer than the bytes asked for, and enough upcoming bytes
    to fill that room, the loop never leaves. *)
Lemma ReadAtLeast_loop_short_slice (fuel : nat) :
  forall (p : list byte) (remaining : Z) (start : nat) (this : PdfParser),
  start <= length p ->
  length p - start <= length (upcoming this) ->
  (Z.of_nat (length p - start) < remaining)%Z ->
  ReadAtLeast_loop fuel p remaining start this = None.
Proof.
  induction fuel as [|fuel IH]; intros p remaining start this Hstart Hup Hrem;
    cbn [ReadAtLeast_loop]; destruct (Z.leb_spec remaining 0); try lia; [done|].
  destruct (length p - start) as [|room] eqn:Hroom.
  - cbn [readerRead length]. cbv iota beta.
    apply IH; rewrite length_write_at by (simpl; lia); simpl; lia.
  - destruct (readerRead (S room) this) as [[got err] this1] eqn:Hread.
    apply readerRead_spec in Hread as (_ & _ & _ & Hlen & Hup' & _ & Herr & _).
    assert (Hupl : length (upcoming this) = length got + length (upcoming this1))
      by (by rewrite Hup', length_app).
    destruct err as [msg|].
    { destruct Herr as [-> Hdry]; [done|]. rewrite Hdry in Hupl. simpl in *. lia. }
    apply IH; rewrite length_write_at by lia; lia.
Qed.

(** X5. From [SetFileOffset] on, through any run of reads and a call of
    [ReadAtLeast], however it ends, [GetFileOffset] is not negative and
    names the place in the source of the next byte a read will hand out. *)
Theorem GetFileOffset_names_next_byte
    (offset : Z) (sizes : list nat) (fuel : nat) (p : list byte) (n : Z)
    (this this' : PdfParser) (count : nat) (err : option string) (p' : list byte) :
  ReadAtLeast fuel p n (snd (readAll sizes (SetFileOffset offset this)))
    = Some (count, err, p', this') ->
  (0 <= GetFileOffset this')%Z /\
  upcoming this' = drop (Z.to_nat (GetFileOffset this')) (rs_data (rs this)).
Proof.
  intros Hrun.
  apply ReadAtLeast_loop_consistent in Hrun as [[Hpos Hup] Hd].
  - split; [done|]. rewrite Hup, Hd, readAll_data.
    unfold SetFileOffset, Seek. by destruct (offset <? 0)%Z.
  - apply readAll_consistent, SetFileOffset_consistent.
Qed.

(** X6. Called with a slice of exactly [n] bytes, [ReadAtLeast] fills it
    with the next [n] upcoming bytes and returns [n] when that many are
    upcoming; otherwise it returns the error together with the count of all
    that was upcoming, now at the front of the slice.  The size of the
    read-ahead buffer and the sizes of the source's reads make no
    difference to the outcome. *)
Theorem ReadAtLeast_fills_exact_slice (fuel n : nat) (p : list byte) (this : PdfParser) :
  0 < rs_chunk (rs this) -> length p = n -> n <= fuel ->
  exists (count : nat) (err : option string) (p' : list byte) (this' : PdfParser),
    ReadAtLeast fuel p (Z.of_nat n) this = Some (count, err, p', this') /\
    GetFileOffset this' = (GetFileOffset this + Z.of_nat count)%Z /\
    if decide (n <= length (upcoming this)) then
      count = n /\ err = None /\
      p' = take n (upcoming this) /\ upcoming this' = drop n (upcoming this)
    else
      count = length (upcoming this) /\ err = Some "Failed reading" /\
      take count p' = upcoming this /\ upcoming this' = [].
Proof. apply ReadAtLeast_exact_spec. Qed.

(** X7. [SetFileOffset] to an offset that is not negative, followed by
    [ReadAtLeast] into a slice of [n] bytes, yields the [n] bytes of the
    source that start at that offset, when the source has them, and leaves
    the logical position right behind them. *)
Theorem SetFileOffset_then_ReadAtLeast
    (fuel n : nat) (offset : Z) (p : list byte) (this : PdfParser) :
  0 < rs_chunk (rs this) -> (0 <= offset)%Z -> length p = n -> n <= fuel ->
  Z.to_nat offset + n <= length (rs_data (rs this)) ->
  exists this' : PdfParser,
    ReadAtLeast fuel p (Z.of_nat n) (SetFileOffset offset this)
      = Some (n, None, take n (drop (Z.to_nat offset) (rs_data (rs this))), this') /\
    GetFileOffset this' = (offset + Z.of_nat n)%Z.
Proof.
  intros Hchunk Hoff Hlen Hfuel Hdata.
  assert (Hup : upcoming (SetFileOffset offset this)
                = drop (Z.to_nat offset) (rs_data (rs this)))
    by (unfold upcoming, SetFileOffset; by rewrite Seek_start).
  assert (Hpos : GetFileOffset (SetFileOffset offset this) = offset).
  { rewrite GetFileOffset_eq. unfold SetFileOffset. rewrite Seek_start by done.
    cbn [snd rs reader NewReader Buffered br_unread length rs_pos]. lia. }
  destruct (ReadAtLeast_exact_spec fuel n p (SetFileOffset offset this))
    as (count & err & p' & this' & Hrun & Hoff' & Hres); try done.
  { unfold SetFileOffset. by rewrite Seek_start. }
  rewrite Hup, Hpos in *.
  rewrite decide_True in Hres by (rewrite length_drop; lia).
  destruct Hres as (-> & -> & -> & _). by exists this'.
Qed.

(** X8. The logical position saved with [GetFileOffset] and given back to
    [SetFileOffset] after any run of reads brings the reader back: the
    bytes to come are the same as when the position was saved. *)
Theorem GetFileOffset_SetFileOffset_round_trip (sizes : list nat) (this : PdfParser) :
  reader_consistent this ->
  let saved := GetFileOffset this in
  let back := SetFileOffset saved (snd (readAll sizes this)) in
  GetFileOffset back = saved /\ upcoming back = upcoming this.
Proof.
  intros [Hpos Hup] saved back. subst saved back.
  rewrite GetFileOffset_eq at 1. unfold upcoming at 1, SetFileOffset.
  rewrite !Seek_start by done.
  cbn [snd rs reader NewReader Buffered br_unread length rs_pos rs_data app].
  rewrite readAll_data, Hup. split; [lia|done].
Qed.

(** X9. At the end of the source, with nothing read ahead, [ReadAtLeast]
    for one byte or more into a slice that is not empty returns 0 and the
    error "Failed reading" at its first read, and leaves slice and parser
    as they were. *)
Theorem ReadAtLeast_at_end (fuel : nat) (p : list byte) (n : Z) (this : PdfParser) :
  upcoming this = [] -> (0 < n)%Z -> p <> [] ->
  ReadAtLeast (S fuel) p n this = Some (0, Some "Failed reading", p, this).
Proof.
  intros Hup Hn Hp. unfold ReadAtLeast. cbn [ReadAtLeast_loop].
  destruct (Z.leb_spec n 0); [lia|]. rewrite Nat.sub_0_r.
  apply app_eq_nil in Hup as [Hbuf Hdata].
  assert (Hend : length (rs_data (rs this)) <= rs_pos (rs this)).
  { apply (f_equal length) in Hdata. rewrite length_drop in Hdata. simpl in Hdata. lia. }
  destruct p as [|b p]; [done|]. unfold readerRead. cbn [length]. rewrite Hbuf.
  unfold sourceRead. destruct (Nat.leb_spec (length (rs_data (rs this))) (rs_pos (rs this)));
    [|lia].
  destruct (br_size (reader this) <=? S (length p)); cbn iota beta;
    by rewrite parser_eta.
Qed.

(** X10. A [SetFileOffset] to a negative offset does not move the source,
    but it does discard the bytes read ahead: they are lost to the caller,
    and the logical position jumps forward by their count. *)
Theorem SetFileOffset_negative_loses_read_ahead (offset : Z) (this : PdfParser) :
  (offset < 0)%Z ->
  let refused := SetFileOffset offset this in
  rs refused = rs this /\
  upcoming refused = drop (Buffered (reader this)) (upcoming this) /\
  GetFileOffset refused
    = (GetFileOffset this + Z.of_nat (Buffered (reader this)))%Z.
Proof.
  intros Hneg refused. subst refused.
  rewrite !GetFileOffset_eq. unfold upcoming, SetFileOffset, Buffered.
  rewrite Seek_start_negative by done.
  cbn [snd rs reader NewReader br_unread length app].
  split_and!; [done| |lia]. by rewrite drop_app_length.
Qed.

(** X11. Asked for more bytes than the slice has room for, over a source
    with enough upcoming bytes to fill the slice, [ReadAtLeast] never leaves
    its loop: once the slice is full every read is of an empty slice, hands
    out nothing and reports no error.  An empty slice with [n] above 0 is
    the plainest case. *)
Theorem ReadAtLeast_short_slice_never_leaves
    (fuel : nat) (p : list byte) (n : Z) (this : PdfParser) :
  (Z.of_nat (length p) < n)%Z ->
  length p <= length (upcoming this) ->
  ReadAtLeast fuel p n this = None.
Proof.
  intros Hshort Hup. unfold ReadAtLeast.
  apply ReadAtLeast_loop_short_slice; rewrite ?Nat.sub_0_r; try done; lia.
Qed.

(* ===================================================================== *)
(** ** Properties of curves and paths *)
(* ===================================================================== *)

Section FloatOrder.

Import PrimFloat SpecFloat.

Lemma SFltb_irrefl (a : spec_float) : SFltb a a = false.
Proof.
  unfold SFltb, SFcompare. destruct a as [s|s| |s m e]; try done; destruct s; try done;
    by rewrite Z.compare_refl, Pos.compare_cont_refl.
Qed.

Lemma SFltb_trans (a b c : spec_float) :
  SFltb a b = true -> SFltb b c = true -> SFltb a c = true.
Proof.
  unfold SFltb, SFcompare.
  destruct a as [sa|sa| |sa ma ea], b as [sb|sb| |sb mb eb], c as [sc|sc| |sc mc ec];
    try destruct sa; try destruct sb; try destruct sc; try done;
    destruct (Z.compare_spec ea eb), (Z.compare_spec eb ec), (Z.compare_spec ea ec);
    try done; try lia; subst;
    fold (Pos.compare ma mb) (Pos.compare mb mc) (Pos.compare ma mc);
    destruct (Pos.compare_spec ma mb), (Pos.compare_spec mb mc),
      (Pos.compare_spec ma mc); try done; lia.
Qed.

(** [<] on float64 is irreflexive and transitive, NaN included. *)
Lemma float_ltb_irrefl (x : float) : ltb x x = false.
Proof. rewrite FloatAxioms.ltb_spec. apply SFltb_irrefl. Qed.

Lemma float_ltb_trans (x y z : float) :
  ltb x y = true -> ltb y z = true -> ltb x z = true.
Proof. rewrite !FloatAxioms.ltb_spec. apply SFltb_trans. Qed.

End FloatOrder.

Section BoundsProperties.

Import PrimFloat draw.
Local Open Scope float_scope.

(** A running minimum ends at its start or strictly below it. *)
Lemma lower_chain (vs : list float) (m : float) :
  fold_left lower vs m = m \/ (fold_left lower vs m <? m) = true.
Proof.
  revert m. induction vs as [|v vs IH]; intros m; simpl; [by left|].
  change (lower m v) with (if v <? m then v else m). destruct (v <? m) eqn:Hv.
  - destruct (IH v) as [->|Hlt]; [by right|]. right. by eapply float_ltb_trans.
  - apply IH.
Qed.

Lemma lower_keeps (vs : list float) (m x : float) :
  (x <? m) = false -> (x <? fold_left lower vs m) = false.
Proof.
  intros Hx. destruct (lower_chain vs m) as [->|Hlt]; [done|].
  destruct (x <? fold_left lower vs m) eqn:Hc; [|done].
  by rewrite (float_ltb_trans _ _ _ Hc Hlt) in Hx.
Qed.

(** No value a running minimum has seen is below where it ends, and it ends
    on its start or on one of the values. *)
Lemma lower_spec (vs : list float) (m : float) :
  (m <? fold_left lower vs m) = false /\
  Forall (fun v => (v <? fold_left lower vs m) = false) vs /\
  (fold_left lower vs m = m \/ fold_left lower vs m ∈ vs).
Proof.
  split; [apply lower_keeps, float_ltb_irrefl|].
  revert m. induction vs as [|v vs IH]; intros m; simpl.
  { split; [constructor|by left]. }
  destruct (IH (lower m v)) as [Hall Hat]. split.
  - constructor; [|done]. apply lower_keeps. unfold lower.
    destruct (v <? m) eqn:Hv; [apply float_ltb_irrefl|done].
  - destruct Hat as [->|Hin]; [|right; by right].
    unfold lower. destruct (v <? m); [right; left|by left].
Qed.

Lemma upper_chain (vs : list float) (m : float) :
  fold_left upper vs m = m \/ (m <? fold_left upper vs m) = true.
Proof.
  revert m. induction vs as [|v vs IH]; intros m; simpl; [by left|].
  change (upper m v) with (if m <? v then v else m). destruct (m <? v) eqn:Hv.
  - destruct (IH v) as [->|Hlt]; [by right|]. right. by eapply float_ltb_trans.
  - apply IH.
Qed.

Lemma upper_keeps (vs : list float) (m x : float) :
  (m <? x) = false -> (fold_left upper vs m <? x) = false.
Proof.
  intros Hx. destruct (upper_chain vs m) as [->|Hlt]; [done|].
  destruct (fold_left upper vs m <? x) eqn:Hc; [|done].
  by rewrite (float_ltb_trans _ _ _ Hlt Hc) in Hx.
Qed.

Lemma upper_spec (vs : list float) (m : float) :
  (fold_left upper vs m <? m) = false /\
  Forall (fun v => (fold_left upper vs m <? v) = false) vs /\
  (fold_left upper vs m = m \/ fold_left upper vs m ∈ vs).
Proof.
  split; [apply upper_keeps, float_ltb_irrefl|].
  revert m. induction vs as [|v vs IH]; intros m; simpl.
  { split; [constructor|by left]. }
  destruct (IH (upper m v)) as [Hall Hat]. split.
  - constructor; [|done]. apply upper_keeps. unfold upper.
    destruct (m <? v) eqn:Hv; [apply float_ltb_irrefl|done].
  - destruct Hat as [->|Hin]; [|right; by right].
    unfold upper. destruct (m <? v); [right; left|by left].
Qed.

(** A pass of [widen] is four running extremes side by side. *)
Lemma widen_fold {A} (lowX highX lowY highY : A -> float) (l : list A) (e : Extent) :
  fold_left (fun e a => widen (lowX a) (highX a) (lowY a) (highY a) e) l e
  = mkExtent (fold_left lower (map lowX l) (minX e))
             (fold_left upper (map highX l) (maxX e))
             (fold_left lower (map lowY l) (minY e))
             (fold_left upper (map highY l) (maxY e)).
Proof.
  revert e. induction l as [|a l IH]; intros e; simpl; [by destruct e|].
  by rewrite IH.
Qed.

End BoundsProperties.

Section GetBoundsProperties.

Import PrimFloat draw.
Local Open Scope float_scope.

Variable Pow : float -> float -> float.

Lemma GetBounds_loop_parameters (fuel : nat) (curve : CubicBezierCurve) :
  forall (t : float) (e : Extent),
  GetBounds_loop Pow fuel curve t e =
    match parameters fuel t with
    | Some ts =>
        Some (fold_left
                (fun e t => widen (Rx Pow curve t) (Rx Pow curve t)
                                  (Ry Pow curve t) (Ry Pow curve t) e) ts e)
    | None => None
    end.
Proof.
  induction fuel as [|fuel IH]; intros t e; simpl; destruct (t <=? 1); try done.
  rewrite IH. by destruct (parameters fuel (t + 0.001)).
Qed.

Lemma GetBounds_boundsOver (fuel : nat) (curve : CubicBezierCurve) :
  GetBounds Pow fuel curve =
    match parameters fuel 0 with
    | Some ts => Some (boundsOver Pow curve ts)
    | None => None
    end.
Proof.
  unfold GetBounds. rewrite GetBounds_loop_parameters.
  by destruct (parameters fuel 0).
Qed.

Lemma parameters_mono (fuel : nat) :
  forall (fuel' : nat) (t : float) (ts : list float),
  parameters fuel t = Some ts -> (fuel <= fuel')%nat -> parameters fuel' t = Some ts.
Proof.
  induction fuel as [|fuel IH]; intros fuel' t ts; simpl.
  - destruct (t <=? 1) eqn:Ht; [done|]. intros [= <-] _.
    destruct fuel'; simpl; by rewrite Ht.
  - destruct (t <=? 1) eqn:Ht.
    + destruct (parameters fuel (t + 0.001)) as [ts'|] eqn:Hts; [|done].
      intros [= <-] Hle. destruct fuel' as [|fuel']; [lia|]. simpl. rewrite Ht.
      rewrite (IH fuel' _ _ Hts); [done|lia].
    + intros [= <-] _. destruct fuel'; simpl; by rewrite Ht.
Qed.

Lemma parameters_visited : parameters 1000 0 = Some visited.
Proof. vm_compute. reflexivity. Qed.

Lemma parameters_Some (fuel : nat) (ts : list float) :
  parameters fuel 0 = Some ts -> ts = visited.
Proof.
  intros Hts. destruct (Nat.le_ge_cases fuel 1000) as [Hle|Hge].
  - apply (parameters_mono _ 1000) in Hts; [|done].
    rewrite parameters_visited in Hts. by injection Hts.
  - rewrite (parameters_mono _ fuel _ _ parameters_visited Hge) in Hts.
    by injection Hts.
Qed.

(** X12. Allowed 1000 rounds or more, [GetBounds] returns, for every curve,
    after exactly 1000 rounds: its parameter runs from 0 in steps of 0.001
    and stops at 0.9990000000000008, the next value being above 1.  Every
    parameter visited is below 1, so the end of the curve, at parameter 1,
    is never looked at. *)
Theorem GetBounds_visits_1000_parameters (fuel : nat) (curve : CubicBezierCurve) :
  (1000 <= fuel)%nat ->
  GetBounds Pow fuel curve = Some (boundsOver Pow curve visited) /\
  GetBounds Pow 999 curve = None /\
  length visited = 1000%nat /\
  head visited = Some 0 /\
  last visited = Some 0.9990000000000008 /\
  forallb (fun t => t <? 1) visited = true.
Proof.
  intros Hfuel. split_and!.
  - rewrite GetBounds_boundsOver.
    by rewrite (parameters_mono _ fuel _ _ parameters_visited Hfuel).
  - rewrite GetBounds_boundsOver.
    by replace (parameters 999 0) with (@None (list float)) by (vm_compute; reflexivity).
  - vm_compute; reflexivity.
  - vm_compute; reflexivity.
  - vm_compute; reflexivity.
  - vm_compute; reflexivity.
Qed.

(** X13. The rectangle of [GetBounds] encloses the start of the curve and
    every point the loop has computed: none of them lies left of, right of,
    below or above it by [<].  Its left edge is the start's [X] or the
    [Rx] of a parameter visited.  This holds for every [math.Pow], and for
    coordinates that are no numbers as well. *)
Theorem GetBounds_encloses_samples
    (fuel : nat) (curve : CubicBezierCurve) (r : PdfRectangle) :
  GetBounds Pow fuel curve = Some r ->
  ((X (P0 curve) <? Llx r) = false /\ (Urx r <? X (P0 curve)) = false /\
   (Y (P0 curve) <? Lly r) = false /\ (Ury r <? Y (P0 curve)) = false) /\
  Forall (fun t =>
            (Rx Pow curve t <? Llx r) = false /\ (Urx r <? Rx Pow curve t) = false /\
            (Ry Pow curve t <? Lly r) = false /\ (Ury r <? Ry Pow curve t) = false)
         visited /\
  (Llx r = X (P0 curve) \/ Llx r ∈ map (Rx Pow curve) visited).
Proof.
  rewrite GetBounds_boundsOver.
  destruct (parameters fuel 0) as [ts|] eqn:Hts; [|done].
  apply parameters_Some in Hts as ->. intros [= <-].
  unfold boundsOver. rewrite widen_fold. cbn [Llx Lly Urx Ury minX maxX minY maxY].
  destruct (lower_spec (map (Rx Pow curve) visited) (X (P0 curve))) as (HxL0 & HxL & HxA).
  destruct (upper_spec (map (Rx Pow curve) visited) (X (P0 curve))) as (HxU0 & HxU & _).
  destruct (lower_spec (map (Ry Pow curve) visited) (Y (P0 curve))) as (HyL0 & HyL & _).
  destruct (upper_spec (map (Ry Pow curve) visited) (Y (P0 curve))) as (HyU0 & HyU & _).
  rewrite Forall_map in HxL, HxU, HyL, HyU.
  rewrite Forall_forall in HxL, HxU, HyL, HyU.
  split; [exact (conj HxL0 (conj HxU0 (conj HyL0 HyU0)))|].
  split; [|exact HxA].
  apply Forall_forall. intros t Ht.
  exact (conj (HxL t Ht) (conj (HxU t Ht) (conj (HyL t Ht) (HyU t Ht)))).
Qed.

End GetBoundsProperties.

Section GetBoundingBoxProperties.

Import PrimFloat draw.
Local Open Scope float_scope.

Variable Pow : float -> float -> float.

(** The loop of [GetBoundingBox], when it returns, is a pass of [widen]
    over the rectangles [GetBounds] gave for the curves. *)
Lemma GetBoundingBox_loop_Some (fuel : nat) (curves : list CubicBezierCurve) :
  forall e0 e : Extent,
  GetBoundingBox_loop Pow fuel curves e0 = Some e ->
  exists rs : list PdfRectangle,
    Forall2 (fun c r => GetBounds Pow fuel c = Some r) curves rs /\
    e = fold_left (fun e r => widen (Llx r) (Urx r) (Lly r) (Ury r) e) rs e0.
Proof.
  induction curves as [|c curves IH]; intros e0 e; simpl.
  - intros [= <-]. exists []. split; [constructor|done].
  - destruct (GetBounds Pow fuel c) as [r|] eqn:Hr; [|done]. intros Hloop.
    destruct (IH _ _ Hloop) as (rs & Hrs & ->).
    exists (r :: rs). split; [by constructor|done].
Qed.

Lemma GetBoundingBox_loop_returns (fuel : nat) (curves : list CubicBezierCurve) :
  (1000 <= fuel)%nat ->
  forall e0 : Extent, is_Some (GetBoundingBox_loop Pow fuel curves e0).
Proof.
  intros Hfuel. induction curves as [|c curves IH]; intros e0; simpl; [eauto|].
  rewrite GetBounds_boundsOver.
  rewrite (parameters_mono _ fuel _ _ parameters_visited Hfuel). apply IH.
Qed.

(** X14. When [GetBoundingBox] returns for a path that is not empty, its
    rectangle has the corner and the sizes of extremes that enclose the
    rectangle [GetBounds] gives for each curve of the path: no curve's
    rectangle reaches left of or below the corner, nor right of or above
    the extremes the width and height are taken from; and the corner's [X]
    is the left edge of one of the curves. *)
Theorem GetBoundingBox_encloses_curves
    (fuel : nat) (curves : list CubicBezierCurve) (box : Rectangle) :
  curves <> [] ->
  GetBoundingBoxOf Pow fuel curves = Some box ->
  exists e : Extent,
    box = mkRectangle (minX e) (minY e) (maxX e - minX e) (maxY e - minY e) /\
    Forall (fun c =>
              exists r, GetBounds Pow fuel c = Some r /\
                (Llx r <? Rectangle_X box) = false /\ (maxX e <? Urx r) = false /\
                (Lly r <? Rectangle_Y box) = false /\ (maxY e <? Ury r) = false)
           curves /\
    exists c r, c ∈ curves /\ GetBounds Pow fuel c = Some r /\ Rectangle_X box = Llx r.
Proof.
  intros Hne. destruct curves as [|first rest]; [done|].
  unfold GetBoundingBoxOf, boundingExtent.
  destruct (GetBounds Pow fuel first) as [r1|] eqn:Hr1; [|done].
  destruct (GetBoundingBox_loop Pow fuel (first :: rest) _) as [e|] eqn:Hloop; [|done].
  intros [= <-]. exists e. split; [done|].
  apply GetBoundingBox_loop_Some in Hloop as (rs & Hrs & ->).
  rewrite widen_fold. cbn [Rectangle_X Rectangle_Y minX maxX minY maxY].
  destruct (lower_spec (map Llx rs) (Llx r1)) as (_ & HxL & HxA).
  destruct (upper_spec (map Urx rs) (Urx r1)) as (_ & HxU & _).
  destruct (lower_spec (map Lly rs) (Lly r1)) as (_ & HyL & _).
  destruct (upper_spec (map Ury rs) (Ury r1)) as (_ & HyU & _).
  rewrite Forall_map in HxL, HxU, HyL, HyU.
  rewrite Forall_forall in HxL, HxU, HyL, HyU.
  split.
  - apply Forall_forall. intros c Hc.
    apply list_elem_of_lookup in Hc as [i Hi].
    destruct (Forall2_lookup_l _ _ _ _ _ Hrs Hi) as (r & Hri & Hr).
    apply list_elem_of_lookup_2 in Hri.
    exists r. exact (conj Hr (conj (HxL r Hri) (conj (HxU r Hri)
                       (conj (HyL r Hri) (HyU r Hri))))).
  - destruct HxA as [->|Hin].
    + exists first, r1. split; [left|done].
    + apply list_elem_of_fmap in Hin as (r & -> & Hr).
      apply list_elem_of_lookup in Hr as [i Hi].
      destruct (Forall2_lookup_r _ _ _ _ _ Hrs Hi) as (c & Hci & Hc).
      exists c, r. split; [by eapply list_elem_of_lookup_2|done].
Qed.

(** X15. Allowed 1000 rounds or more per curve, [GetBoundingBox] returns for
    every path and every heap; for a path without curves it returns the
    zero rectangle without calling [GetBounds]. *)
Theorem GetBoundingBox_returns
    (fuel : nat) (h : gmap nat (list CubicBezierCurve)) (bpath : CubicBezierPath) :
  (1000 <= fuel)%nat ->
  is_Some (GetBoundingBox Pow fuel h bpath) /\
  (Length bpath = 0%nat ->
   forall fuel', GetBoundingBox Pow fuel' h bpath = Some (mkRectangle 0 0 0 0)).
Proof.
  intros Hfuel. unfold GetBoundingBox, Length, elements. split.
  - unfold GetBoundingBoxOf, boundingExtent.
    destruct (take _ _) as [|first rest]; [eauto|].
    rewrite GetBounds_boundsOver.
    rewrite (parameters_mono _ fuel _ _ parameters_visited Hfuel).
    destruct (GetBoundingBox_loop_returns fuel (first :: rest) Hfuel
                (mkExtent (Llx (boundsOver Pow first visited))
                          (Urx (boundsOver Pow first visited))
                          (Lly (boundsOver Pow first visited))
                          (Ury (boundsOver Pow first visited)))) as [e He].
    rewrite He. eauto.
  - intros -> fuel'. reflexivity.
Qed.

End GetBoundingBoxProperties.

Section PathProperties.

Import PrimFloat draw.

Variable growslice : nat -> nat.

(** The runtime gives a full slice a larger array. *)
Hypothesis growslice_grows : forall oldcap, oldcap < growslice oldcap.

Local Abbreviation heap := (gmap nat (list CubicBezierCurve)).

Lemma array_at_insert (h : heap) (a : nat) (l : list CubicBezierCurve) :
  array_at (<[a := l]> h) a = l.
Proof. unfold array_at. by rewrite lookup_insert_eq. Qed.

Lemma array_at_insert_ne (h : heap) (a b : nat) (l : list CubicBezierCurve) :
  a <> b -> array_at (<[a := l]> h) b = array_at h b.
Proof. intros Hne. unfold array_at. by rewrite lookup_insert_ne. Qed.

(** A slice with room in it has its array on the heap. *)
Lemma slice_wf_dom (h : heap) (s : Slice) :
  slice_wf h s -> 0 < cap s -> arr s ∈ dom h.
Proof.
  intros [_ Hcap] Hpos. specialize (Hcap Hpos). apply elem_of_dom.
  unfold array_at in Hcap. destruct (h !! arr s); [eauto|simpl in Hcap; lia].
Qed.

Lemma elements_length (h : heap) (s : Slice) :
  slice_wf h s -> length (elements h s) = len s.
Proof.
  intros [Hlen Hcap]. unfold elements. rewrite length_take.
  destruct (cap s) as [|c] eqn:Hc; [lia|]. rewrite Hcap by lia. lia.
Qed.

Lemma read_elements (h : heap) (s : Slice) (i : nat) :
  i < len s -> read h s i = default zeroCurve (elements h s !! i).
Proof. intros Hi. unfold read, elements. by rewrite lookup_take_lt. Qed.

(** A write at an index leaves every slice alone that lies in another array
    or ends at or before that index. *)
Lemma write_frame (h : heap) (s t : Slice) (i : nat) (c : CubicBezierCurve) :
  arr t <> arr s \/ len t <= i ->
  elements (write h s i c) t = elements h t /\
  length (array_at (write h s i c) (arr t)) = length (array_at h (arr t)).
Proof.
  intros Hsep. unfold elements, write.
  destruct (decide (arr s = arr t)) as [Heq|Hne].
  - rewrite <- Heq, array_at_insert, length_insert. split; [|done].
    destruct Hsep as [Hsep|Hle]; [congruence|]. by rewrite take_insert_ge.
  - by rewrite array_at_insert_ne.
Qed.

(** [append] puts the curve behind the curves the slice shows.  With room
    left it writes into the array of the slice; otherwise the new array is
    at an address the heap did not have.  Either way every fitting slice
    that shows no more curves than [s], or lies in another array, shows
    what it showed. *)
Lemma append_spec (h h' : heap) (s s' : Slice) (c : CubicBezierCurve) :
  slice_wf h s ->
  append growslice h s c = (s', h') ->
  slice_wf h' s' /\
  len s' = S (len s) /\
  elements h' s' = elements h s ++ [c] /\
  (len s < cap s -> s' = mkSlice (arr s) (S (len s)) (cap s) /\ h' = write h s (len s) c) /\
  (cap s <= len s -> arr s' ∉ dom h) /\
  (forall t, slice_wf h t ->
             (len s < cap s -> arr t <> arr s \/ len t <= len s) ->
             slice_wf h' t /\ elements h' t = elements h t).
Proof.
  intros Hwf. pose proof Hwf as [Hlen Hcap]. unfold append.
  destruct (Nat.ltb_spec (len s) (cap s)) as [Hroom|Hfull]; intros [= <- <-].
  - specialize (Hcap ltac:(lia)).
    split_and!; try done; try (simpl; lia).
    + split; simpl; [lia|]. intros _. unfold write.
      by rewrite array_at_insert, length_insert.
    + unfold elements, write. simpl. rewrite array_at_insert.
      rewrite (take_S_r _ _ c).
      * by rewrite take_insert_ge.
      * apply list_lookup_insert_eq. lia.
    + intros t [Htl Htc] Hsep. specialize (Hsep Hroom).
      destruct (write_frame h s t (len s) c Hsep) as [He Hl].
      split; [|done]. split; [done|]. intros Hpos. rewrite Hl. auto.
  - assert (Hfresh : fresh (dom h) ∉ dom h) by apply is_fresh.
    pose proof (growslice_grows (cap s)) as Hgrow.
    pose proof (elements_length h s Hwf) as Hel.
    split_and!; try done; try (simpl; lia).
    + split; simpl; [lia|]. intros _.
      rewrite array_at_insert, length_app, Hel. simpl. rewrite length_replicate. lia.
    + unfold elements at 1. simpl. rewrite array_at_insert.
      rewrite cons_middle, app_assoc. apply take_app_length'.
      rewrite length_app, Hel. simpl. lia.
    + intros t Hwft _.
      destruct (decide (0 < cap t)) as [Hpos|Hzero].
      * assert (arr t <> fresh (dom h))
          by (intros Heq; apply Hfresh; rewrite <- Heq; by apply slice_wf_dom).
        unfold slice_wf, elements. by rewrite array_at_insert_ne.
      * destruct Hwft as [Htl _]. assert (len t = 0) as Ht0 by lia.
        unfold slice_wf, elements. rewrite Ht0. split; [|done]. split; lia.
Qed.

(** The loop of [Copy] builds, in arrays of its own, a slice that shows the
    curves of [src], and leaves alone every slice that was there. *)
Lemma Copy_loop_spec (n : nat) :
  forall (i : nat) (src dst dst' : Slice) (h h' : heap),
  slice_wf h src -> slice_wf h dst ->
  i + n = len src -> len dst = i ->
  elements h dst = take i (elements h src) ->
  cap dst = 0 \/ arr dst <> arr src ->
  Copy_loop growslice n i src dst h = (dst', h') ->
  slice_wf h' dst' /\ len dst' = len src /\
  elements h' dst' = elements h src /\
  (cap dst' = 0 \/ arr dst' <> arr src) /\
  (forall t, slice_wf h t -> cap t = 0 \/ cap dst = 0 \/ arr t <> arr dst ->
             slice_wf h' t /\ elements h' t = elements h t).
Proof.
  induction n as [|n IH]; intros i src dst dst' h h' Hsrc Hdst Hin Hlen Hel Hsep;
    cbn [Copy_loop].
  - intros [= <- <-]. split_and!; try done; [lia|].
    rewrite Hel. apply take_ge. rewrite elements_length by done. lia.
  - destruct (append growslice h dst (read h src i)) as [dst1 h1] eqn:Happ.
    apply append_spec in Happ as (Hwf1 & Hlen1 & Hel1 & Hin1 & Hnew1 & Hframe1);
      [|done].
    assert (Hcapsrc : 0 < cap src) by (destruct Hsrc; lia).
    assert (Hsep1 : cap dst1 = 0 \/ arr dst1 <> arr src).
    { right. destruct (Nat.lt_ge_cases (len dst) (cap dst)) as [Hroom|Hfull].
      - destruct (Hin1 Hroom) as [-> _]. simpl. destruct Hsep; [lia|done].
      - intros Heq. apply (Hnew1 Hfull). rewrite Heq. by apply slice_wf_dom. }
    destruct (Hframe1 src Hsrc) as [Hsrc1 Hsrcel].
    { intros Hroom. left. destruct Hsep; [lia|done]. }
    intros Hloop.
    destruct (IH (S i) src dst1 dst' h1 h') as (Hwf' & Hlen' & Hel' & Hsep' & Hframe');
      try done; try lia.
    { rewrite Hel1, Hel, Hsrcel. rewrite read_elements by lia.
      assert (Hi : i < length (elements h src))
        by (rewrite elements_length by done; lia).
      apply lookup_lt_is_Some_2 in Hi as [c Hc]. rewrite Hc. simpl.
      by rewrite (take_S_r _ _ c). }
    split_and!; try done; [congruence|].
    intros t Ht Hsept.
    destruct (Hframe1 t Ht) as [Ht1 Htel].
    { intros Hroom. destruct Hsept as [Hz|[Hz|Hne]]; [|lia|by left].
      right. destruct Ht. lia. }
    destruct (Hframe' t Ht1) as [Ht' Htel']; [|split; [done|congruence]].
    destruct (decide (cap t = 0)) as [|Hpos]; [by left|]. right. right.
    destruct (Nat.lt_ge_cases (len dst) (cap dst)) as [Hroom|Hfull].
    + destruct (Hin1 Hroom) as [-> _]. simpl.
      destruct Hsept as [Hz|[Hz|Hne]]; [lia|lia|done].
    + intros Heq. apply (Hnew1 Hfull). rewrite <- Heq. apply slice_wf_dom; [done|lia].
Qed.

(** The loop of [Offset] rewrites the array of the slice in place, entry by
    entry, and touches nothing else on the heap. *)
Lemma Offset_loop_spec (dX dY : float) (n : nat) :
  forall (i : nat) (s : Slice) (h : heap),
  i + n <= length (array_at h (arr s)) ->
  let h' := Offset_loop n i s dX dY h in
  length (array_at h' (arr s)) = length (array_at h (arr s)) /\
  (forall j, array_at h' (arr s) !! j =
             if decide (i <= j < i + n)
             then (fun c => AddOffsetXY c dX dY) <$> array_at h (arr s) !! j
             else array_at h (arr s) !! j) /\
  (forall a, a <> arr s -> h' !! a = h !! a).
Proof.
  induction n as [|n IH]; intros i s h Hin; cbn [Offset_loop]; cbv zeta.
  - split_and!; try done. intros j. by rewrite decide_False by lia.
  - set (c := AddOffsetXY (read h s i) dX dY).
    destruct (IH (S i) s (write h s i c)) as (Hlen & Hget & Hframe).
    { unfold write. rewrite array_at_insert, length_insert. lia. }
    unfold write in Hlen, Hget, Hframe. rewrite array_at_insert in Hlen, Hget.
    rewrite length_insert in Hlen.
    split_and!; [done| |].
    + intros j. rewrite Hget.
      destruct (decide (j = i)) as [->|Hne].
      * rewrite decide_False by lia. rewrite decide_True by lia.
        rewrite list_lookup_insert_eq by lia.
        unfold c, read. assert (Hi : i < length (array_at h (arr s))) by lia.
        apply lookup_lt_is_Some_2 in Hi as [ci Hci]. by rewrite Hci.
      * rewrite list_lookup_insert_ne by done.
        destruct (decide (S i <= j < S i + n)), (decide (i <= j < i + S n));
          try done; lia.
    + intros a Ha. unfold write. rewrite (Hframe a Ha). by rewrite lookup_insert_ne.
Qed.

Lemma Offset_elements (dX dY : float) (h : heap) (s : Slice) :
  slice_wf h s ->
  elements (Offset_loop (len s) 0 s dX dY h) s
    = map (fun c => AddOffsetXY c dX dY) (elements h s).
Proof.
  intros [Hlen Hcap].
  destruct (len s) as [|l] eqn:Hl; [by unfold elements; rewrite Hl|].
  specialize (Hcap ltac:(lia)).
  destruct (Offset_loop_spec dX dY (len s) 0 s h) as (Hlen' & Hget & _); [lia|].
  rewrite Hl in *. unfold elements. rewrite Hl.
  apply list_eq. intros j. rewrite list_lookup_fmap.
  destruct (decide (j < S l)) as [Hj|Hj].
  - rewrite !lookup_take_lt by done. rewrite Hget. by rewrite decide_True by lia.
  - by rewrite !lookup_take_ge by lia.
Qed.

(** X16. [AppendCurve] on a path that fits the heap returns a path that
    shows the curves of the receiver followed by the new curve, one longer
    than the receiver; the path value it was called on still shows the
    curves it showed. *)
Theorem AppendCurve_appends
    (h h' : heap) (bpath appended : CubicBezierPath) (curve : CubicBezierCurve) :
  slice_wf h (Curves bpath) ->
  AppendCurve growslice h bpath curve = (appended, h') ->
  elements h' (Curves appended) = elements h (Curves bpath) ++ [curve] /\
  Length appended = S (Length bpath) /\
  elements h' (Curves bpath) = elements h (Curves bpath) /\
  slice_wf h' (Curves appended) /\ slice_wf h' (Curves bpath).
Proof.
  intros Hwf. unfold AppendCurve, Length.
  destruct (append growslice h (Curves bpath) curve) as [curves h1] eqn:Happ.
  intros [= <- <-]. simpl.
  apply append_spec in Happ as (Hwf1 & Hlen1 & Hel1 & _ & _ & Hframe); [|done].
  destruct (Hframe (Curves bpath) Hwf) as [Hwf' Hel']; [intros _; right; lia|].
  done.
Qed.

(** X17. [AppendCurve] returns no independent copy when the slice of the
    receiver has room left: two calls on the same path value write the same
    array entry and return the same slice, so the path the first call
    returned now ends in the curve of the second call. *)
Theorem AppendCurve_shares_array
    (h h1 h2 : heap) (bpath first second : CubicBezierPath)
    (curve1 curve2 : CubicBezierCurve) :
  slice_wf h (Curves bpath) ->
  Length bpath < cap (Curves bpath) ->
  AppendCurve growslice h bpath curve1 = (first, h1) ->
  AppendCurve growslice h1 bpath curve2 = (second, h2) ->
  elements h1 (Curves first) = elements h (Curves bpath) ++ [curve1] /\
  second = first /\
  elements h2 (Curves first) = elements h (Curves bpath) ++ [curve2].
Proof.
  intros Hwf Hroom. unfold AppendCurve, Length in *.
  destruct (append growslice h (Curves bpath) curve1) as [s1 g1] eqn:Happ1.
  intros [= <- <-].
  destruct (append growslice g1 (Curves bpath) curve2) as [s2 g2] eqn:Happ2.
  intros [= <- <-]. simpl.
  apply append_spec in Happ1 as (_ & _ & Hel1 & Hin1 & _ & Hframe1); [|done].
  destruct (Hin1 Hroom) as [-> ->].
  destruct (Hframe1 (Curves bpath) Hwf) as [Hwf1 Hkeep]; [intros _; right; lia|].
  apply append_spec in Happ2 as (_ & _ & Hel2 & Hin2 & _); [|done].
  destruct (Hin2 Hroom) as [-> _].
  split_and!; [done|done|]. by rewrite Hel2, Hkeep.
Qed.

(** X18. [Copy] of a path that fits the heap returns a path that shows the
    same curves, in the same number, in an array of its own when there is
    any curve; the receiver shows what it showed. *)
Theorem Copy_copies (h h' : heap) (bpath copy : CubicBezierPath) :
  slice_wf h (Curves bpath) ->
  Copy growslice h bpath = (copy, h') ->
  elements h' (Curves copy) = elements h (Curves bpath) /\
  Length copy = Length bpath /\
  elements h' (Curves bpath) = elements h (Curves bpath) /\
  (0 < Length bpath -> arr (Curves copy) <> arr (Curves bpath)) /\
  slice_wf h' (Curves copy) /\ slice_wf h' (Curves bpath).
Proof.
  intros Hwf. unfold Copy, Length.
  destruct (Copy_loop growslice _ 0 _ emptySlice h) as [curves h1] eqn:Hloop.
  intros [= <- <-]. simpl.
  apply Copy_loop_spec in Hloop as (Hwf' & Hlen' & Hel' & Hsep' & Hframe);
    try done; try (by left); try (split; simpl; lia).
  destruct (Hframe (Curves bpath) Hwf) as [Hwfb Helb]; [right; by left|].
  split_and!; try done.
  intros Hpos. destruct Hsep' as [Hz|Hne]; [|done]. destruct Hwf'. lia.
Qed.

(** X19. [Offset] moves the curves of the receiver in place: it returns the
    path value it was given, and after the call the array behind that path
    holds each curve moved by [dX] and [dY], for the caller's path as for
    the returned one.  No other array of the heap is touched. *)
Theorem Offset_in_place
    (h h' : heap) (bpath moved : CubicBezierPath) (dX dY : float) :
  slice_wf h (Curves bpath) ->
  Offset h bpath dX dY = (moved, h') ->
  moved = bpath /\
  elements h' (Curves bpath)
    = map (fun c => AddOffsetXY c dX dY) (elements h (Curves bpath)) /\
  slice_wf h' (Curves bpath) /\
  (forall a, a <> arr (Curves bpath) -> h' !! a = h !! a).
Proof.
  intros Hwf [= <- <-]. split; [done|]. split; [by apply Offset_elements|].
  destruct (decide (len (Curves bpath) = 0)) as [Hzero|Hsome].
  { by rewrite Hzero. }
  pose proof Hwf as [Hlen Hcap]. specialize (Hcap ltac:(lia)).
  destruct (Offset_loop_spec dX dY (len (Curves bpath)) 0 (Curves bpath) h)
    as (Hlen' & _ & Hframe); [lia|].
  split; [|exact Hframe]. split; [done|]. intros _. by rewrite Hlen'.
Qed.

(** X20. [Offset] of a [Copy] leaves the original alone: the copy shows the
    curves moved, the original shows them as they were. *)
Theorem Copy_then_Offset_keeps_original
    (h h1 h2 : heap) (bpath copy moved : CubicBezierPath) (dX dY : float) :
  slice_wf h (Curves bpath) ->
  Copy growslice h bpath = (copy, h1) ->
  Offset h1 copy dX dY = (moved, h2) ->
  elements h2 (Curves moved)
    = map (fun c => AddOffsetXY c dX dY) (elements h (Curves bpath)) /\
  elements h2 (Curves bpath) = elements h (Curves bpath).
Proof.
  intros Hwf. unfold Copy.
  destruct (Copy_loop growslice _ 0 _ emptySlice h) as [curves g1] eqn:Hloop.
  intros [= <- <-] [= <- <-]. simpl.
  apply Copy_loop_spec in Hloop as (Hwf' & Hlen' & Hel' & Hsep' & Hframe);
    try done; try (by left); try (split; simpl; lia).
  destruct (Hframe (Curves bpath) Hwf) as [Hwfb Helb]; [right; by left|].
  split; [by rewrite Offset_elements, Hel'|].
  rewrite <- Helb. destruct (decide (len curves = 0)) as [Hzero|Hsome].
  { by rewrite Hzero. }
  destruct Hwf' as [Hlc Hcap]. specialize (Hcap ltac:(lia)).
  destruct (Offset_loop_spec dX dY (len curves) 0 curves g1)
    as (_ & _ & Hother); [lia|].
  destruct Hsep' as [Hz|Hne]; [lia|].
  unfold elements, array_at. rewrite Hother; [done|]. congruence.
Qed.

End PathProperties.

(* ===================================================================== *)
(** ** The further properties at sample inputs *)
(* ===================================================================== *)

Lemma EncodeStream_frame_witness :
  "Filter" <> "EarlyChange" /\ "Filter" <> "Length" /\
  Get "Filter" (snd (@EncodeStream unit pdfFilterNames identityCodecs lzwStream))
    = Get "Filter" lzwStream.
Proof.
  assert (H1 : "Filter" <> "EarlyChange") by discriminate.
  assert (H2 : "Filter" <> "Length") by discriminate.
  split_and!; [exact H1 | exact H2 |].
  exact (@EncodeStream_frame unit pdfFilterNames identityCodecs lzwStream "Filter" H1 H2).
Defined.

Lemma EncodeStream_other_filter_witness :
  @NewEncoderFromStream unit pdfFilterNames identityCodecs plainStream = Ok RawEncoder /\
  Get "EarlyChange" (snd (@EncodeStream unit pdfFilterNames identityCodecs plainStream))
    = Get "EarlyChange" plainStream.
Proof.
  assert (Hsel : @NewEncoderFromStream unit pdfFilterNames identityCodecs plainStream
                 = Ok RawEncoder) by reflexivity.
  split; [exact Hsel|].
  exact (proj1 (@EncodeStream_other_filter_keeps_EarlyChange unit pdfFilterNames
                  identityCodecs plainStream RawEncoder Hsel
                  (fun lzwenc Heq => eq_ind RawEncoder
                     (fun e => match e with RawEncoder => True | _ => False end)
                     I _ Heq))).
Defined.

Lemma identityCodecs_return : @constructors_return unit identityCodecs.
Proof. unfold constructors_return. split_and!; intros s; reflexivity. Defined.

Lemma NewEncoderFromStream_panics_witness :
  @constructors_return unit identityCodecs /\
  (panicked (@NewEncoderFromStream unit pdfFilterNames identityCodecs unknownFilterStream)
     = true <->
   exists method : string,
     (method ∉ @supported_names pdfFilterNames) /\
     (Get "Filter" unknownFilterStream = Some (PdfObjectName method) \/
      Get "Filter" unknownFilterStream = Some (PdfObjectArray [PdfObjectName method]))).
Proof.
  split; [exact identityCodecs_return|].
  exact (@NewEncoderFromStream_panics_iff unit pdfFilterNames identityCodecs
           unknownFilterStream identityCodecs_return).
Defined.

Lemma pdfFilterNames_NoDup : NoDup (@supported_names pdfFilterNames).
Proof. apply (bool_decide_unpack _). vm_compute. exact I. Defined.

Lemma NewEncoderFromStream_dispatch_witness :
  NoDup (@supported_names pdfFilterNames) /\
  @NewEncoderFromStream unit pdfFilterNames identityCodecs
    (mkStream (<["Filter" := PdfObjectName "JPXDecode"]> ∅) bytes_abcd)
  = Ok JPXEncoder.
Proof.
  split; [exact pdfFilterNames_NoDup|].
  pose proof (@NewEncoderFromStream_dispatch unit pdfFilterNames identityCodecs
                ∅ bytes_abcd pdfFilterNames_NoDup) as Hd.
  cbv zeta in Hd. exact (proj2 (proj2 (proj2 (proj2 (proj2 (proj2 (proj2 (proj2 Hd)))))))).
Defined.

Lemma GetFileOffset_names_next_byte_witness :
  exists (this' : PdfParser),
    ReadAtLeast 2 [x00; x00]%byte 2 (snd (readAll [1] (SetFileOffset 1 parser_abcd)))
      = Some (2, None, [x63; x64]%byte, this') /\
    (0 <= GetFileOffset this')%Z /\
    upcoming this' = drop (Z.to_nat (GetFileOffset this')) (rs_data (rs parser_abcd)).
Proof.
  eexists. split; [reflexivity|].
  exact (GetFileOffset_names_next_byte 1 [1] 2 [x00; x00]%byte 2 parser_abcd
           _ 2 None [x63; x64]%byte eq_refl).
Defined.

Lemma ReadAtLeast_fills_exact_slice_witness :
  0 < rs_chunk (rs parser_abcd) /\
  exists (count : nat) (err : option string) (p' : list byte) (this' : PdfParser),
    ReadAtLeast 3 [x00; x00; x00]%byte (Z.of_nat 3) parser_abcd
      = Some (count, err, p', this') /\
    GetFileOffset this' = (GetFileOffset parser_abcd + Z.of_nat count)%Z /\
    if decide (3 <= length (upcoming parser_abcd)) then
      count = 3 /\ err = None /\
      p' = take 3 (upcoming parser_abcd) /\ upcoming this' = drop 3 (upcoming parser_abcd)
    else
      count = length (upcoming parser_abcd) /\ err = Some "Failed reading" /\
      take count p' = upcoming parser_abcd /\ upcoming this' = [].
Proof.
  assert (Hchunk : 0 < rs_chunk (rs parser_abcd)) by (simpl; lia).
  split; [exact Hchunk|].
  exact (ReadAtLeast_fills_exact_slice 3 3 [x00; x00; x00]%byte parser_abcd
           Hchunk eq_refl (le_n 3)).
Defined.

Lemma SetFileOffset_then_ReadAtLeast_witness :
  exists this' : PdfParser,
    ReadAtLeast 2 [x00; x00]%byte (Z.of_nat 2) (SetFileOffset 1 parser_abcd)
      = Some (2, None, take 2 (drop (Z.to_nat 1) (rs_data (rs parser_abcd))), this') /\
    GetFileOffset this' = (1 + Z.of_nat 2)%Z.
Proof.
  assert (Hchunk : 0 < rs_chunk (rs parser_abcd)) by (simpl; lia).
  assert (Hoff : (0 <= 1)%Z) by lia.
  assert (Hdata : Z.to_nat 1 + 2 <= length (rs_data (rs parser_abcd)))
    by (vm_compute; lia).
  exact (SetFileOffset_then_ReadAtLeast 2 2 1 [x00; x00]%byte parser_abcd
           Hchunk Hoff eq_refl (le_n 2) Hdata).
Defined.

Lemma parser_abcd_read1_consistent : reader_consistent parser_abcd_read1.
Proof. split; [vm_compute; discriminate|reflexivity]. Defined.

Lemma GetFileOffset_SetFileOffset_round_trip_witness :
  reader_consistent parser_abcd_read1 /\
  upcoming (SetFileOffset (GetFileOffset parser_abcd_read1)
              (snd (readAll [2; 1] parser_abcd_read1)))
    = upcoming parser_abcd_read1.
Proof.
  split; [exact parser_abcd_read1_consistent|].
  exact (proj2 (GetFileOffset_SetFileOffset_round_trip [2; 1] parser_abcd_read1
                  parser_abcd_read1_consistent)).
Defined.

Lemma ReadAtLeast_at_end_witness :
  upcoming parser_abcd_end = [] /\ (0 < 1)%Z /\ [x00]%byte <> [] /\
  ReadAtLeast 1 [x00]%byte 1 parser_abcd_end
    = Some (0, Some "Failed reading", [x00]%byte, parser_abcd_end).
Proof.
  assert (Hup : upcoming parser_abcd_end = []) by reflexivity.
  assert (Hn : (0 < 1)%Z) by lia.
  assert (Hp : [x00]%byte <> []) by discriminate.
  split_and!; [exact Hup | exact Hn | exact Hp |].
  exact (ReadAtLeast_at_end 0 [x00]%byte 1 parser_abcd_end Hup Hn Hp).
Defined.

Lemma SetFileOffset_negative_witness :
  (-1 < 0)%Z /\
  Buffered (reader parser_abcd_read1) = 3 /\
  upcoming (SetFileOffset (-1) parser_abcd_read1)
    = drop (Buffered (reader parser_abcd_read1)) (upcoming parser_abcd_read1) /\
  GetFileOffset (SetFileOffset (-1) parser_abcd_read1)
    = (GetFileOffset parser_abcd_read1
       + Z.of_nat (Buffered (reader parser_abcd_read1)))%Z.
Proof.
  assert (Hneg : (-1 < 0)%Z) by lia.
  split_and!; [exact Hneg | reflexivity |..];
    apply (SetFileOffset_negative_loses_read_ahead (-1) parser_abcd_read1 Hneg).
Defined.

Lemma ReadAtLeast_short_slice_witness :
  (Z.of_nat (length [x00; x00]%byte) < 3)%Z /\
  length [x00; x00]%byte <= length (upcoming parser_abcd) /\
  ReadAtLeast 5 [x00; x00]%byte 3 parser_abcd = None.
Proof.
  assert (Hshort : (Z.of_nat (length [x00; x00]%byte) < 3)%Z) by (simpl; lia).
  assert (Hup : length [x00; x00]%byte <= length (upcoming parser_abcd))
    by (vm_compute; lia).
  split_and!; [exact Hshort | exact Hup |].
  exact (ReadAtLeast_short_slice_never_leaves 5 [x00; x00]%byte 3 parser_abcd Hshort Hup).
Defined.

Section DrawWitnesses.

Import PrimFloat draw.
Local Open Scope float_scope.

Lemma doubling_grows (oldcap : nat) : (oldcap < doubling oldcap)%nat.
Proof. destruct oldcap; simpl; lia. Defined.

Lemma GetBounds_visits_witness :
  (1000 <= 1000)%nat /\
  GetBounds samplePow 1000 sampleCurve = Some (boundsOver samplePow sampleCurve visited) /\
  GetBounds samplePow 999 sampleCurve = None /\
  length visited = 1000%nat.
Proof.
  split; [exact (le_n 1000)|].
  pose proof (GetBounds_visits_1000_parameters samplePow 1000 sampleCurve (le_n 1000))
    as (H1 & H2 & H3 & _).
  exact (conj H1 (conj H2 H3)).
Defined.

Lemma GetBounds_encloses_witness :
  exists r : PdfRectangle,
    GetBounds samplePow 1000 sampleCurve = Some r /\
    (X (P0 sampleCurve) <? Llx r) = false /\ (Urx r <? X (P0 sampleCurve)) = false.
Proof.
  eexists. split; [vm_compute; reflexivity|].
  match goal with
  | |- (_ <? Llx ?r) = false /\ _ =>
      assert (Hr : GetBounds samplePow 1000 sampleCurve = Some r)
        by (vm_compute; reflexivity);
      pose proof (GetBounds_encloses_samples samplePow 1000 sampleCurve r Hr)
        as ((Ha & Hb & _) & _)
  end.
  exact (conj Ha Hb).
Defined.

Lemma GetBoundingBox_encloses_witness :
  [sampleCurve; otherCurve] <> [] /\
  exists box : Rectangle,
    GetBoundingBoxOf samplePow 1000 [sampleCurve; otherCurve] = Some box /\
    exists c r, c ∈ [sampleCurve; otherCurve] /\
                GetBounds samplePow 1000 c = Some r /\ Rectangle_X box = Llx r.
Proof.
  assert (Hne : [sampleCurve; otherCurve] <> []) by discriminate.
  split; [exact Hne|].
  eexists. split; [vm_compute; reflexivity|].
  match goal with
  | |- exists c r, _ /\ _ /\ Rectangle_X ?box = _ =>
      assert (Hbox : GetBoundingBoxOf samplePow 1000 [sampleCurve; otherCurve] = Some box)
        by (vm_compute; reflexivity);
      pose proof (GetBoundingBox_encloses_curves samplePow 1000
                    [sampleCurve; otherCurve] box Hne Hbox) as (e & _ & _ & Hat)
  end.
  exact Hat.
Defined.

Lemma GetBoundingBox_returns_witness :
  (1000 <= 1000)%nat /\
  is_Some (GetBoundingBox samplePow 1000 (snd pathOf3) (fst pathOf3)).
Proof.
  split; [exact (le_n 1000)|].
  exact (proj1 (GetBoundingBox_returns samplePow 1000 (snd pathOf3) (fst pathOf3)
                  (le_n 1000))).
Defined.

Lemma emptySlice_wf : slice_wf ∅ (Curves NewCubicBezierPath).
Proof. split; simpl; lia. Defined.

Lemma pathOf3_wf : slice_wf (snd pathOf3) (Curves (fst pathOf3)).
Proof. split; [vm_compute; lia|]. intros _. vm_compute. reflexivity. Defined.

Lemma AppendCurve_appends_witness :
  slice_wf ∅ (Curves NewCubicBezierPath) /\
  exists appended h',
    AppendCurve doubling ∅ NewCubicBezierPath sampleCurve = (appended, h') /\
    elements h' (Curves appended) = elements ∅ (Curves NewCubicBezierPath) ++ [sampleCurve] /\
    Length appended = S (Length NewCubicBezierPath).
Proof.
  split; [exact emptySlice_wf|].
  eexists _, _. split; [vm_compute; reflexivity|].
  match goal with
  | |- elements ?h' (Curves ?q) = _ /\ _ =>
      pose proof (AppendCurve_appends doubling doubling_grows ∅ h' NewCubicBezierPath q
                    sampleCurve emptySlice_wf ltac:(vm_compute; reflexivity))
        as (H1 & H2 & _)
  end.
  exact (conj H1 H2).
Defined.

Lemma AppendCurve_shares_array_witness :
  slice_wf (snd pathOf3) (Curves (fst pathOf3)) /\
  (Length (fst pathOf3) < cap (Curves (fst pathOf3)))%nat /\
  exists first h1 second h2,
    AppendCurve doubling (snd pathOf3) (fst pathOf3) sampleCurve = (first, h1) /\
    AppendCurve doubling h1 (fst pathOf3) otherCurve = (second, h2) /\
    second = first /\
    elements h2 (Curves first) = elements (snd pathOf3) (Curves (fst pathOf3)) ++ [otherCurve].
Proof.
  assert (Hroom : (Length (fst pathOf3) < cap (Curves (fst pathOf3)))%nat)
    by (vm_compute; lia).
  split_and!; [exact pathOf3_wf | exact Hroom |].
  eexists _, _, _, _.
  split; [vm_compute; reflexivity|]. split; [vm_compute; reflexivity|].
  refine (let H := AppendCurve_shares_array doubling doubling_grows (snd pathOf3) _ _
                     (fst pathOf3) _ _ sampleCurve otherCurve pathOf3_wf Hroom _ _ in
          conj (proj1 (proj2 H)) (proj2 (proj2 H))); vm_compute; reflexivity.
Defined.

Lemma Copy_copies_witness :
  slice_wf (snd pathOf3) (Curves (fst pathOf3)) /\
  exists copy h',
    Copy doubling (snd pathOf3) (fst pathOf3) = (copy, h') /\
    elements h' (Curves copy) = elements (snd pathOf3) (Curves (fst pathOf3)) /\
    arr (Curves copy) <> arr (Curves (fst pathOf3)).
Proof.
  split; [exact pathOf3_wf|].
  eexists _, _. split; [vm_compute; reflexivity|].
  match goal with
  | |- elements ?h' (Curves ?q) = _ /\ _ =>
      pose proof (Copy_copies doubling doubling_grows (snd pathOf3) h' (fst pathOf3) q
                    pathOf3_wf ltac:(vm_compute; reflexivity))
        as (H1 & _ & _ & H4 & _)
  end.
  split; [exact H1|]. apply H4. vm_compute. lia.
Defined.

Lemma Offset_in_place_witness :
  slice_wf (snd pathOf3) (Curves (fst pathOf3)) /\
  exists moved h',
    Offset (snd pathOf3) (fst pathOf3) 1 2 = (moved, h') /\
    moved = fst pathOf3 /\
    elements h' (Curves (fst pathOf3))
      = map (fun c => AddOffsetXY c 1 2) (elements (snd pathOf3) (Curves (fst pathOf3))).
Proof.
  split; [exact pathOf3_wf|].
  eexists _, _. split; [reflexivity|].
  pose proof (Offset_in_place (snd pathOf3) _ (fst pathOf3) _ 1 2 pathOf3_wf eq_refl)
    as (H1 & H2 & _).
  exact (conj H1 H2).
Defined.

Lemma Copy_then_Offset_witness :
  slice_wf (snd pathOf3) (Curves (fst pathOf3)) /\
  exists copy h1 moved h2,
    Copy doubling (snd pathOf3) (fst pathOf3) = (copy, h1) /\
    Offset h1 copy 1 2 = (moved, h2) /\
    elements h2 (Curves (fst pathOf3)) = elements (snd pathOf3) (Curves (fst pathOf3)).
Proof.
  split; [exact pathOf3_wf|].
  eexists _, _, _, _.
  split; [vm_compute; reflexivity|]. split; [reflexivity|].
  match goal with
  | |- elements (Offset_loop _ _ _ _ _ ?h1) _ = _ =>
      match goal with
      | |- elements (Offset_loop (len (Curves ?copy)) _ _ _ _ _) _ = _ =>
          exact (proj2 (Copy_then_Offset_keeps_original doubling doubling_grows
                          (snd pathOf3) h1 _ (fst pathOf3) copy _ 1 2 pathOf3_wf
                          ltac:(vm_compute; reflexivity) eq_refl))
      end
  end.
Defined.

End DrawWitnesses.
